(** * BTCP system monitor: the target health state machine, the probes,
      the notifier and the scheduler of [monitor.py], embedded in Rocq.

    The embedding follows the source function by function.  Python objects
    that the monitor mutates in place ([Target]) are passed and returned
    explicitly; everything the program asks of the outside (the wall clock,
    the network and the subprocesses behind the probes, the Telegram API) is
    gathered in a [World] that is threaded through the calls. *)

From Stdlib Require Import ZArith String Ascii List Lia DecimalString.
From stdpp Require Import base option list sorting strings gmap.

Local Open Scope string_scope.
Local Open Scope list_scope.
Local Open Scope Z_scope.

(** ** Python values and strings *)

(** The values the configuration dictionaries of the source hold. *)
Inductive PyVal :=
| PStr (s : string)
| PInt (z : Z).

#[global] Instance PyVal_eq_dec : EqDecision PyVal.
Proof. solve_decision. Defined.

(** [str(z)] of a Python [int]. *)
Definition str_of_int (z : Z) : string := NilZero.string_of_int (Z.to_int z).

(** [f"{v}"] for a string or an integer. *)
Definition py_str (v : PyVal) : string :=
  match v with
  | PStr s => s
  | PInt z => str_of_int z
  end.

(** [needle in hay] on Python strings: [needle] occurs as a contiguous run. *)
Fixpoint contains (needle hay : string) : bool :=
  String.prefix needle hay ||
  match hay with
  | EmptyString => false
  | String _ rest => contains needle rest
  end.

(** [bytes.lower()]: only the ASCII letters A..Z change. *)
Definition lower_ascii (c : ascii) : ascii :=
  let n := nat_of_ascii c in
  if ((65 <=? n)%nat && (n <=? 90)%nat)%bool then ascii_of_nat (n + 32) else c.

Fixpoint lower (s : string) : string :=
  match s with
  | EmptyString => EmptyString
  | String c rest => String (lower_ascii c) (lower rest)
  end.

(** Truth value of a Python [str]: non-empty. *)
Definition truthy (s : string) : bool :=
  match s with
  | EmptyString => false
  | String _ _ => true
  end.

(** ** Exceptions

    Only subclasses of [Exception] are modelled (every handler of the source
    is [except Exception] or narrower).  An exception is known by the
    [isinstance] tests the handlers make, by [type(e).__name__] and by
    [str(e)]. *)
Record Exn := mkExn {
  is_TimeoutError : bool;
  is_ConnectionRefusedError : bool;
  is_ClientError : bool;
  exn_name : string;
  exn_str : string
}.

(** The exception [asyncio.wait_for] raises when its timeout expires:
    [TimeoutError()] built with no argument, so that [str(e)] is empty. *)
Definition wait_for_timeout : Exn :=
  {| is_TimeoutError := true; is_ConnectionRefusedError := false;
     is_ClientError := false; exn_name := "TimeoutError"; exn_str := "" |}.

(** The timeout of an [aiohttp] request ([ClientTimeout(total=...)]): an
    [asyncio.TimeoutError], again without a message. *)
Definition aiohttp_timeout : Exn :=
  {| is_TimeoutError := true; is_ConnectionRefusedError := false;
     is_ClientError := false; exn_name := "TimeoutError"; exn_str := "" |}.

(** [d[k]] on a missing key; [str(KeyError(k))] is the [repr] of the key. *)
Definition KeyError (k : string) : Exn :=
  {| is_TimeoutError := false; is_ConnectionRefusedError := false;
     is_ClientError := false; exn_name := "KeyError";
     exn_str := "'" +:+ k +:+ "'" |}.

(** What an awaited call gives back: a value, or an exception. *)
Inductive Awaited (A : Type) :=
| Returned (a : A)
| Raised (e : Exn).
Arguments Returned {A} a.
Arguments Raised {A} e.

(** ** Configuration: the [CONFIG] dictionary *)

Record Config := mkConfig {
  CHECK_INTERVAL : Z;
  RETRY_INTERVAL : Z;
  TIMEOUT : Z;
  ALERT_ON_RECOVERY : bool;
  CONSECUTIVE_FAILURES : Z;
  RUN_ONCE : bool
}.

(** The environment variables [CONFIG] reads, already converted by [int(...)]
    and by [.lower() == "true"]; [None] stands for an unset variable. *)
Record Env := mkEnv {
  env_CHECK_INTERVAL : option Z;
  env_RETRY_INTERVAL : option Z;
  env_TIMEOUT : option Z;
  env_RUN_ONCE : option bool
}.

Definition CONFIG (e : Env) : Config :=
  {| CHECK_INTERVAL := default 30 (env_CHECK_INTERVAL e);
     RETRY_INTERVAL := default 10 (env_RETRY_INTERVAL e);
     TIMEOUT := default 10 (env_TIMEOUT e);
     ALERT_ON_RECOVERY := true;
     CONSECUTIVE_FAILURES := 2;
     RUN_ONCE := default false (env_RUN_ONCE e) |}.

Definition empty_env : Env :=
  {| env_CHECK_INTERVAL := None; env_RETRY_INTERVAL := None;
     env_TIMEOUT := None; env_RUN_ONCE := None |}.

(** ** Data model *)

Inductive Status := UP | DOWN | UNKNOWN.

#[global] Instance Status_eq_dec : EqDecision Status.
Proof. solve_decision. Defined.

(** [Status.value]: the glyph each member carries. *)
Definition Status_value (s : Status) : string :=
  match s with
  | UP => "🟢"
  | DOWN => "🔴"
  | UNKNOWN => "🟡"
  end.

(** Timestamps ([datetime]) are microseconds on the wall clock; an
    [Optional[datetime]] is an [option Z].  [response_time] holds the
    elapsed time of the last probe in microseconds: the source keeps the
    same quantity as a float of milliseconds and only ever stores it,
    prints it and compares it with zero. *)
Record Target := mkTarget {
  name : string;
  type : string;
  status : Status;
  last_check : option Z;
  last_status_change : option Z;
  consecutive_failures : Z;
  response_time : Z;
  error_message : string;
  config : gmap string PyVal
}.

(** [Target(name=..., type=..., config=...)]: the defaults of the dataclass. *)
Definition new_Target (n ty : string) (cf : gmap string PyVal) : Target :=
  {| name := n; type := ty; status := UNKNOWN; last_check := None;
     last_status_change := None; consecutive_failures := 0;
     response_time := 0; error_message := ""; config := cf |}.

(** ** Messages handed to Telegram

    A message is kept as the values its f-string interpolates, one field per
    placeholder and one optional field per optional line. *)
Record Alert := mkAlert {
  alert_is_down : bool;
  alert_name : string;
  alert_type : string;
  alert_now : Z;
  alert_error : option string;
  alert_response : option Z;
  alert_downtime : option (Z * Z * Z)
}.

Definition alert_header (a : Alert) : string :=
  if alert_is_down a then "🚨 <b>ALERT: SERVIZIO DOWN</b> 🚨"
  else "✅ <b>SERVIZIO RIPRISTINATO</b> ✅".

Definition alert_emoji (a : Alert) : string :=
  if alert_is_down a then "🔴" else "✅".

Definition alert_status_text (a : Alert) : string :=
  if alert_is_down a then "DOWN" else "RECOVERED".

Record ReportLine := mkLine {
  line_status : Status;
  line_name : string;
  line_error : option string
}.

Definition line_emoji (l : ReportLine) : string := Status_value (line_status l).

Record Report := mkReport {
  report_now : Z;
  report_up_count : Z;
  report_down_count : Z;
  report_lines : list ReportLine
}.

Inductive Message :=
| AlertMsg (a : Alert)
| ReportMsg (r : Report)
| StartMsg (targets : Z) (interval : Z).

(** ** The outside world *)

Inductive ProbeCall :=
| Ping (host : PyVal) (timeout : Z)
| TcpPort (host port : PyVal) (timeout : Z)
| Http (url expected_status : PyVal) (timeout : Z)
| Docker (container : PyVal) (timeout : Z)
| Systemd (service : PyVal) (timeout : Z).

(** What the awaited I/O of each probe gives back.  The first argument of
    every oracle is the number of probes issued before this one.
    - ping: the return code of the [ping] process;
    - TCP: the connection, then the result of [writer.wait_closed()];
    - HTTP: the status of the response;
    - docker: return code and standard output of [docker inspect];
    - systemd: return code of [systemctl is-active] and the value of
      [stdout.decode().strip()] (or the exception decoding raises). *)
Record Network := mkNetwork {
  ping_proc : nat -> PyVal -> Z -> Awaited Z;
  tcp_conn : nat -> PyVal -> PyVal -> Z -> Awaited (Awaited unit);
  http_get : nat -> PyVal -> Z -> Awaited Z;
  docker_inspect : nat -> PyVal -> Z -> Awaited (Z * string);
  systemctl : nat -> PyVal -> Z -> Awaited (Z * Awaited string)
}.

(** [clock n] is what the [n]-th call of [datetime.now()] returns; [ticks]
    counts the calls made so far.  [probes], [outbox] and [slept] log the
    probes issued, the messages passed to [send_message] and the
    [asyncio.sleep] calls, oldest first. *)
Record World := mkWorld {
  clock : nat -> Z;
  ticks : nat;
  net : Network;
  probes : list ProbeCall;
  outbox : list Message;
  slept : list Z
}.

(** [datetime.now()] *)
Definition now (w : World) : Z * World :=
  (clock w (ticks w),
   {| clock := clock w; ticks := S (ticks w); net := net w;
      probes := probes w; outbox := outbox w; slept := slept w |}).

Definition issue (c : ProbeCall) (w : World) : World :=
  {| clock := clock w; ticks := ticks w; net := net w;
     probes := probes w ++ [c]; outbox := outbox w; slept := slept w |}.

(** [TelegramNotifier.send_message]: the HTTP POST is the world's business;
    its boolean result is ignored by every caller. *)
Definition send_message (m : Message) (w : World) : World :=
  {| clock := clock w; ticks := ticks w; net := net w;
     probes := probes w; outbox := outbox w ++ [m]; slept := slept w |}.

(** [asyncio.sleep(s)] *)
Definition sleep (s : Z) (w : World) : World :=
  {| clock := clock w; ticks := ticks w; net := net w;
     probes := probes w; outbox := outbox w; slept := slept w ++ [s] |}.

(** ** TelegramNotifier *)

(** [divmod(a, b)] on Python integers (floor division). *)
Definition divmod (a b : Z) : Z * Z := (a / b, a mod b).

(** Hours, minutes and seconds of a [timedelta] of [d] microseconds, as
    [send_alert] computes them: [int(duration.total_seconds())] truncates
    towards zero, the two [divmod] round down. *)
Definition downtime_hms (d : Z) : Z * Z * Z :=
  let total := Z.quot d 1000000 in
  let '(hours, remainder) := divmod total 3600 in
  let '(minutes, seconds) := divmod remainder 60 in
  (hours, minutes, seconds).

(** [TelegramNotifier.send_alert] *)
Definition send_alert (target : Target) (is_down : bool) (w : World) : World :=
  let '(now_, w) := now w in
  let error :=
    if truthy (error_message target) && is_down
    then Some (error_message target) else None in
  let response :=
    if (0 <? response_time target) && negb is_down
    then Some (response_time target) else None in
  let '(downtime, w) :=
    match last_status_change target with
    | Some since =>
        if negb is_down then
          let '(t, w') := now w in (Some (downtime_hms (t - since)), w')
        else (None, w)
    | None => (None, w)
    end in
  send_message
    (AlertMsg {| alert_is_down := is_down; alert_name := name target;
                 alert_type := type target; alert_now := now_;
                 alert_error := error; alert_response := response;
                 alert_downtime := downtime |}) w.

(** [sum(...)] over integers. *)
Definition py_sum (l : list Z) : Z := fold_left Z.add l 0.

(** [<] on the tuples [(bool, str)] used as sort keys: the first components
    that differ decide, [False < True], strings compare by code point (which
    is the byte order of their UTF-8 encoding). *)
Definition key_lt (a b : bool * string) : bool :=
  if Bool.eqb a.1 b.1 then String.ltb a.2 b.2 else negb a.1 && b.1.

(** [sorted(l, key=key)]: Python's sort is stable, and a stable sort has one
    possible result; it is computed here by insertion from the right, an
    element going in front of the first one that is not smaller than it. *)
Fixpoint insert_sorted {A K} (lt : K -> K -> bool) (key : A -> K)
    (x : A) (l : list A) : list A :=
  match l with
  | [] => [x]
  | y :: l' =>
      if lt (key y) (key x) then y :: insert_sorted lt key x l'
      else x :: y :: l'
  end.

Fixpoint sorted {A K} (lt : K -> K -> bool) (key : A -> K) (l : list A) : list A :=
  match l with
  | [] => []
  | x :: l' => insert_sorted lt key x (sorted lt key l')
  end.

(** [lambda x: (x.status != Status.DOWN, x.name)] *)
Definition sort_key (x : Target) : bool * string :=
  (bool_decide (status x ≠ DOWN), name x).

(** One pass of the loop that appends a target to the report. *)
Definition report_line (target : Target) : ReportLine :=
  if bool_decide (status target = DOWN) && truthy (error_message target)
  then {| line_status := status target; line_name := name target;
          line_error := Some (error_message target) |}
  else {| line_status := status target; line_name := name target;
          line_error := None |}.

(** [TelegramNotifier.send_status_report] *)
Definition send_status_report (targets : list Target) (w : World) : World :=
  let '(now_, w) := now w in
  let up_count := py_sum ((λ _, 1) <$> filter (λ t, status t = UP) targets) in
  let down_count := py_sum ((λ _, 1) <$> filter (λ t, status t = DOWN) targets) in
  send_message
    (ReportMsg {| report_now := now_; report_up_count := up_count;
                  report_down_count := down_count;
                  report_lines := report_line <$> sorted key_lt sort_key targets |}) w.

(** ** SystemMonitor: the probes *)

(** [(is_up, response_time, error_msg)] *)
Definition ProbeResult : Type := bool * Z * string.

(** [SystemMonitor.check_ping] *)
Definition check_ping (cfg : Config) (host : PyVal) (w : World) : ProbeResult * World :=
  let '(start, w) := now w in
  let result := ping_proc (net w) (length (probes w)) host (TIMEOUT cfg) in
  let w := issue (Ping host (TIMEOUT cfg)) w in
  match result with
  | Returned returncode =>
      let '(stop, w) := now w in
      if returncode =? 0 then ((true, stop - start, ""), w)
      else ((false, 0, "Host unreachable"), w)
  | Raised e =>
      if is_TimeoutError e then ((false, 0, "Ping timeout"), w)
      else ((false, 0, exn_str e), w)
  end.

(** The three handlers of [check_tcp_port]. *)
Definition tcp_failure (port : PyVal) (e : Exn) : ProbeResult :=
  if is_TimeoutError e then (false, 0, "Timeout porta " +:+ py_str port)
  else if is_ConnectionRefusedError e
  then (false, 0, "Connessione rifiutata porta " +:+ py_str port)
  else (false, 0, exn_str e).

(** [SystemMonitor.check_tcp_port] *)
Definition check_tcp_port (cfg : Config) (host port : PyVal) (w : World)
    : ProbeResult * World :=
  let '(start, w) := now w in
  let result := tcp_conn (net w) (length (probes w)) host port (TIMEOUT cfg) in
  let w := issue (TcpPort host port (TIMEOUT cfg)) w in
  match result with
  | Returned closed =>
      let '(stop, w) := now w in
      match closed with
      | Returned _ => ((true, stop - start, ""), w)
      | Raised e => (tcp_failure port e, w)
      end
  | Raised e => (tcp_failure port e, w)
  end.

(** [SystemMonitor.check_http] *)
Definition check_http (cfg : Config) (url expected_status : PyVal) (w : World)
    : ProbeResult * World :=
  let '(start, w) := now w in
  let result := http_get (net w) (length (probes w)) url (TIMEOUT cfg) in
  let w := issue (Http url expected_status (TIMEOUT cfg)) w in
  match result with
  | Returned resp_status =>
      let '(stop, w) := now w in
      if bool_decide (PInt resp_status = expected_status)
      then ((true, stop - start, ""), w)
      else ((false, stop - start, "HTTP " +:+ str_of_int resp_status), w)
  | Raised e =>
      if is_TimeoutError e then ((false, 0, "HTTP timeout"), w)
      else if is_ClientError e then ((false, 0, "HTTP error: " +:+ exn_name e), w)
      else ((false, 0, exn_str e), w)
  end.

(** [SystemMonitor.check_docker] *)
Definition check_docker (cfg : Config) (container : PyVal) (w : World)
    : ProbeResult * World :=
  let '(start, w) := now w in
  let result := docker_inspect (net w) (length (probes w)) container (TIMEOUT cfg) in
  let w := issue (Docker container (TIMEOUT cfg)) w in
  match result with
  | Returned (returncode, stdout) =>
      let '(stop, w) := now w in
      if (returncode =? 0) && contains "true" (lower stdout)
      then ((true, stop - start, ""), w)
      else ((false, 0, "Container non running"), w)
  | Raised e => ((false, 0, exn_str e), w)
  end.

(** [SystemMonitor.check_systemd] *)
Definition check_systemd (cfg : Config) (service : PyVal) (w : World)
    : ProbeResult * World :=
  let '(start, w) := now w in
  let result := systemctl (net w) (length (probes w)) service (TIMEOUT cfg) in
  let w := issue (Systemd service (TIMEOUT cfg)) w in
  match result with
  | Returned (returncode, stdout) =>
      let '(stop, w) := now w in
      if returncode =? 0 then ((true, stop - start, ""), w)
      else
        match stdout with
        | Returned text => ((false, 0, "Status: " +:+ text), w)
        | Raised e => ((false, 0, exn_str e), w)
        end
  | Raised e => ((false, 0, exn_str e), w)
  end.

(** ** SystemMonitor: the health state machine *)

(** Assignments to the attributes of a [Target]. *)
Definition set_probe (t : Target) (at_ : Z) (rt : Z) (msg : string) : Target :=
  {| name := name t; type := type t; status := status t;
     last_check := Some at_; last_status_change := last_status_change t;
     consecutive_failures := consecutive_failures t;
     response_time := rt; error_message := msg; config := config t |}.

Definition set_consecutive_failures (t : Target) (n : Z) : Target :=
  {| name := name t; type := type t; status := status t;
     last_check := last_check t; last_status_change := last_status_change t;
     consecutive_failures := n;
     response_time := response_time t; error_message := error_message t;
     config := config t |}.

Definition set_status (t : Target) (s : Status) : Target :=
  {| name := name t; type := type t; status := s;
     last_check := last_check t; last_status_change := last_status_change t;
     consecutive_failures := consecutive_failures t;
     response_time := response_time t; error_message := error_message t;
     config := config t |}.

Definition set_last_status_change (t : Target) (at_ : Z) : Target :=
  {| name := name t; type := type t; status := status t;
     last_check := last_check t; last_status_change := Some at_;
     consecutive_failures := consecutive_failures t;
     response_time := response_time t; error_message := error_message t;
     config := config t |}.

(** [target.config[k]]: the value, or [KeyError]. *)
Definition getitem (t : Target) (k : string) : Awaited PyVal :=
  match config t !! k with
  | Some v => Returned v
  | None => Raised (KeyError k)
  end.

(** First half of [SystemMonitor.check_target]: the probe is chosen by the
    substrings of [target.type], first match first.  A missing configuration
    key raises before any probe is issued; a type that matches nothing
    leaves the three initial values in place. *)
Definition check_target_probe (cfg : Config) (target : Target) (w : World)
    : Awaited ProbeResult * World :=
  if contains "Ping" (type target) then
    match getitem target "host" with
    | Returned host => let '(r, w') := check_ping cfg host w in (Returned r, w')
    | Raised e => (Raised e, w)
    end
  else if contains "TCP" (type target) then
    match getitem target "host" with
    | Returned host =>
        match getitem target "port" with
        | Returned port =>
            let '(r, w') := check_tcp_port cfg host port w in (Returned r, w')
        | Raised e => (Raised e, w)
        end
    | Raised e => (Raised e, w)
    end
  else if contains "HTTP" (type target) then
    match getitem target "url" with
    | Returned url =>
        let expected := default (PInt 200) (config target !! "expected_status") in
        let '(r, w') := check_http cfg url expected w in (Returned r, w')
    | Raised e => (Raised e, w)
    end
  else if contains "Docker" (type target) then
    match getitem target "container" with
    | Returned container =>
        let '(r, w') := check_docker cfg container w in (Returned r, w')
    | Raised e => (Raised e, w)
    end
  else if contains "Systemd" (type target) then
    match getitem target "service" with
    | Returned service =>
        let '(r, w') := check_systemd cfg service w in (Returned r, w')
    | Raised e => (Raised e, w)
    end
  else (Returned (false, 0, ""), w).

(** Second half of [SystemMonitor.check_target]: the probe result is stored
    and the status machine makes its step. *)
Definition check_target_update (cfg : Config) (target : Target)
    (r : ProbeResult) (w : World) : Target * World :=
  let '(is_up, response_time, error_msg) := r in
  let '(checked, w) := now w in
  let target := set_probe target checked response_time error_msg in
  let previous_status := status target in
  if is_up then
    let target := set_consecutive_failures target 0 in
    if bool_decide (previous_status = DOWN) then
      let target := set_status target UP in
      let '(changed, w) := now w in
      let target := set_last_status_change target changed in
      if ALERT_ON_RECOVERY cfg then (target, send_alert target false w)
      else (target, w)
    else (set_status target UP, w)
  else
    let target := set_consecutive_failures target (consecutive_failures target + 1) in
    if CONSECUTIVE_FAILURES cfg <=? consecutive_failures target then
      if bool_decide (previous_status ≠ DOWN) then
        let target := set_status target DOWN in
        let '(changed, w) := now w in
        let target := set_last_status_change target changed in
        (target, send_alert target true w)
      else (target, w)
    else (target, w).

(** [SystemMonitor.check_target]: the exception it ends with, if any, the
    target as it leaves it and the world. *)
Definition check_target (cfg : Config) (target : Target) (w : World)
    : option Exn * Target * World :=
  match check_target_probe cfg target w with
  | (Returned r, w') =>
      let '(target', w'') := check_target_update cfg target r w' in
      (None, target', w'')
  | (Raised e, w') => (Some e, target, w')
  end.

(** ** SystemMonitor: the scheduler *)

(** [SystemMonitor.run_checks]: [asyncio.gather(..., return_exceptions=True)]
    drops what a task raises.  The tasks touch one target each and are run
    here one after the other, in the order of the list. *)
Fixpoint run_checks (cfg : Config) (targets : list Target) (w : World)
    : list Target * World :=
  match targets with
  | [] => ([], w)
  | target :: rest =>
      let '(_, target', w') := check_target cfg target w in
      let '(rest', w'') := run_checks cfg rest w' in
      (target' :: rest', w'')
  end.

(** The [while True] of [SystemMonitor.start], cut after [rounds] passes.
    Its handlers are not reached: nothing in the body raises an
    [Exception]. *)
Fixpoint monitor_loop (cfg : Config) (rounds : nat) (targets : list Target)
    (w : World) : list Target * World :=
  match rounds with
  | O => (targets, w)
  | S rounds' =>
      let '(targets', w') := run_checks cfg targets w in
      monitor_loop cfg rounds' targets' (sleep (CHECK_INTERVAL cfg) w')
  end.

(** [SystemMonitor.start]; [rounds] bounds the loop of the continuous mode
    and is not looked at in the single-run mode. *)
Definition start (cfg : Config) (rounds : nat) (targets : list Target)
    (w : World) : list Target * World :=
  if RUN_ONCE cfg then
    let '(targets', w') := run_checks cfg targets w in
    let down_services := filter (λ t, status t = DOWN) targets' in
    match down_services with
    | _ :: _ => (targets', send_status_report targets' w')
    | [] => (targets', w')
    end
  else
    let w := send_message
               (StartMsg (Z.of_nat (length targets)) (CHECK_INTERVAL cfg)) w in
    monitor_loop cfg rounds targets w.

(** ** Feeding probe results to one target *)

(** The results of a list of probes applied in turn to one target. *)
Fixpoint feed (cfg : Config) (t : Target) (rs : list ProbeResult) (w : World)
    : Target * World :=
  match rs with
  | [] => (t, w)
  | r :: rs' =>
      let '(t', w') := check_target_update cfg t r w in
      feed cfg t' rs' w'
  end.

(** The target after each step of [feed], first step first. *)
Fixpoint feed_trace (cfg : Config) (t : Target) (rs : list ProbeResult)
    (w : World) : list Target :=
  match rs with
  | [] => []
  | r :: rs' =>
      let '(t', w') := check_target_update cfg t r w in
      t' :: feed_trace cfg t' rs' w'
  end.

(** The alerts among the messages of an outbox, by their [is_down] flag. *)
Definition alert_flags (ms : list Message) : list bool :=
  omap (λ m, match m with AlertMsg a => Some (alert_is_down a) | _ => None end) ms.

(** The messages a run of [feed] adds to the outbox. *)
Definition emitted (cfg : Config) (t : Target) (rs : list ProbeResult)
    (w : World) : list Message :=
  drop (length (outbox w)) (outbox (feed cfg t rs w).2).

(** No two neighbours of a list of flags are equal. *)
Fixpoint alternates (l : list bool) : bool :=
  match l with
  | a :: l' =>
      match l' with
      | b :: _ => negb (Bool.eqb a b) && alternates l'
      | [] => true
      end
  | [] => true
  end.

(** Number of failed probes at the head of a list of results, and at its
    end: the failures in a row that a sequence of probes finishes with. *)
Fixpoint leading_failures (rs : list ProbeResult) : Z :=
  match rs with
  | [] => 0
  | r :: rs' => if r.1.1 then 0 else 1 + leading_failures rs'
  end.

Definition trailing_failures (rs : list ProbeResult) : Z :=
  leading_failures (reverse rs).

(** The invariant of the data model: a target is Down only with at least
    the threshold of failures in a row on its counter. *)
Definition down_invariant (cfg : Config) (t : Target) : Prop :=
  status t = DOWN → CONSECUTIVE_FAILURES cfg ≤ consecutive_failures t.

#[global] Instance down_invariant_dec cfg t : Decision (down_invariant cfg t).
Proof. unfold down_invariant. apply _. Defined.

(** [n] calls of [check_target] on one target, one after the other. *)
Fixpoint check_repeatedly (cfg : Config) (n : nat) (t : Target) (w : World)
    : Target * World :=
  match n with
  | O => (t, w)
  | S n' =>
      let '(t', w') := check_repeatedly cfg n' t w in
      let '(_, t'', w'') := check_target cfg t' w' in
      (t'', w'')
  end.

(** The status reports among the messages of an outbox. *)
Definition reports (ms : list Message) : list Report :=
  omap (λ m, match m with ReportMsg r => Some r | _ => None end) ms.

(** A type that selects none of the five probes. *)
Definition selects_no_probe (ty : string) : bool :=
  negb (contains "Ping" ty) && negb (contains "TCP" ty)
  && negb (contains "HTTP" ty) && negb (contains "Docker" ty)
  && negb (contains "Systemd" ty).

(** In a list sorted by [lt] on the keys, [x] may stand before [y]. *)
Definition key_ordered {A K} (lt : K → K → bool) (key : A → K) (x y : A) : Prop :=
  lt (key y) (key x) = false.

(** One round of checks, said without [run_checks]: every target of the
    list is passed to [check_target] exactly once, in turn, each check
    starting in the world the one before it has left (its probes, its
    alerts and its clock readings stay on record); the exception a check
    ends with is dropped. *)
Inductive one_round (cfg : Config)
    : list Target → World → list Target → World → Prop :=
| one_round_nil w : one_round cfg [] w [] w
| one_round_cons t ts w e t' w1 ts' w2 :
    check_target cfg t w = (e, t', w1) →
    one_round cfg ts w1 ts' w2 →
    one_round cfg (t :: ts) w (t' :: ts') w2.

(** ** Sample worlds and targets *)

(** A network on which every probe finds its target in good health. *)
Definition healthy_net : Network :=
  {| ping_proc := λ _ _ _, Returned 0;
     tcp_conn := λ _ _ _ _, Returned (Returned ());
     http_get := λ _ _ _, Returned 200;
     docker_inspect := λ _ _ _, Returned (0, "true");
     systemctl := λ _ _ _, Returned (0, Returned "active") |}.

(** A network on which every awaited call runs into its timeout. *)
Definition stalled_net : Network :=
  {| ping_proc := λ _ _ _, Raised wait_for_timeout;
     tcp_conn := λ _ _ _ _, Raised wait_for_timeout;
     http_get := λ _ _ _, Raised aiohttp_timeout;
     docker_inspect := λ _ _ _, Raised wait_for_timeout;
     systemctl := λ _ _ _, Raised wait_for_timeout |}.

(** A world that starts at the reading [t0] of a clock which moves on by
    [step] microseconds between two readings, with nothing sent yet. *)
Definition world_at (t0 step : Z) (nw : Network) : World :=
  {| clock := λ n, t0 + step * Z.of_nat n; ticks := 0; net := nw;
     probes := []; outbox := []; slept := [] |}.

(** A target in a given state, for the scenarios below. *)
Definition target_in (n ty : string) (s : Status) (since : option Z)
    (failures : Z) : Target :=
  {| name := n; type := ty; status := s; last_check := since;
     last_status_change := since; consecutive_failures := failures;
     response_time := 0; error_message := ""; config := ∅ |}.

(** A network on which one host does not answer the ping. *)
Definition net_without (lost : string) : Network :=
  {| ping_proc := λ _ host _,
       if bool_decide (host = PStr lost) then Returned 1 else Returned 0;
     tcp_conn := λ _ _ _ _, Returned (Returned ());
     http_get := λ _ _ _, Returned 200;
     docker_inspect := λ _ _ _, Returned (0, "true");
     systemctl := λ _ _ _, Returned (0, Returned "active") |}.

(** A server target as [_init_targets] builds it, in a given state. *)
Definition server (n host : string) (s : Status) (failures : Z) : Target :=
  {| name := n; type := "Server (Ping)"; status := s; last_check := None;
     last_status_change := None; consecutive_failures := failures;
     response_time := 0; error_message := "";
     config := {[ "host" := PStr host ]} |}.

Definition probe_ok : ProbeResult := (true, 12000, "").
Definition probe_fail : ProbeResult := (false, 0, "Host unreachable").

(** Unfolds a step and splits it along the branches of the source: recovery
    (with and without alert), success while not Down, threshold reached
    while not Down, threshold reached while Down, threshold not reached. *)
Ltac step_cases cfg t r :=
  unfold check_target_update;
  destruct r as [[is_up rt] msg]; simpl;
  destruct is_up; simpl;
  [ case_bool_decide as Hprev; simpl;
    [destruct (ALERT_ON_RECOVERY cfg) eqn:Halert; simpl|]
  | destruct (CONSECUTIVE_FAILURES cfg <=? consecutive_failures t + 1) eqn:Hthr;
    simpl; [case_bool_decide as Hprev; simpl|] ].

(** Unfolds a probe and follows every outcome of its awaited call. *)
Ltac probe_cases :=
  simpl;
  repeat match goal with
         | |- context [match ?x with _ => _ end] => destruct x; simpl
         end;
  auto.

(** ** SystemMonitor: the registry of targets *)

(** The dictionaries of the five lists of monitored endpoints, by their
    keys.  [expected_status] is read with [.get(..., 200)] and may be
    absent. *)
Record ServerEntry := mkServer {
  server_name : string;
  server_host : string
}.

Record ServiceEntry := mkService {
  service_name : string;
  service_host : string;
  service_port : Z
}.

Record WebsiteEntry := mkWebsite {
  website_name : string;
  website_url : string;
  website_expected_status : option Z
}.

Record NamedEntry := mkNamed {
  entry_name : string
}.

Record Endpoints := mkEndpoints {
  SERVERS : list ServerEntry;
  SERVICES : list ServiceEntry;
  WEBSITES : list WebsiteEntry;
  DOCKER_CONTAINERS : list NamedEntry;
  SYSTEMD_SERVICES : list NamedEntry
}.

(** [SystemMonitor._init_targets]: one fresh target per entry, the five
    lists one after the other. *)
Definition _init_targets (e : Endpoints) : list Target :=
  ((λ srv, new_Target (server_name srv) "Server (Ping)"
             {[ "host" := PStr (server_host srv) ]}) <$> SERVERS e)
  ++ ((λ svc, new_Target (service_name svc)
                ("TCP:" +:+ str_of_int (service_port svc))
                {[ "host" := PStr (service_host svc);
                   "port" := PInt (service_port svc) ]}) <$> SERVICES e)
  ++ ((λ site, new_Target (website_name site) "HTTP/HTTPS"
                 {[ "url" := PStr (website_url site);
                    "expected_status" :=
                      PInt (default 200 (website_expected_status site)) ]})
        <$> WEBSITES e)
  ++ ((λ container, new_Target (entry_name container) "Docker"
                      {[ "container" := PStr (entry_name container) ]})
        <$> DOCKER_CONTAINERS e)
  ++ ((λ service, new_Target (entry_name service) "Systemd"
                    {[ "service" := PStr (entry_name service) ]})
        <$> SYSTEMD_SERVICES e).

(** The endpoints the source lists. *)
Definition deployment : Endpoints :=
  {| SERVERS :=
       [mkServer "BTCPayServer PROD" "51.75.90.145";
        mkServer "Bitmoon API PROD" "54.36.114.17";
        mkServer "BTCPayServer STAGING" "54.36.119.150";
        mkServer "Bitmoon API STAGING" "57.129.91.206";
        mkServer "ARES (Bitcoin Core)" "188.12.149.216";
        mkServer "CRATOS" "btcppl.mywire.org"];
     SERVICES :=
       [mkService "BTCPay PROD SSH" "51.75.90.145" 22;
        mkService "BTCPay PROD HTTPS" "51.75.90.145" 443;
        mkService "Bitmoon PROD SSH" "54.36.114.17" 22;
        mkService "Bitmoon PROD HTTPS" "54.36.114.17" 443;
        mkService "BTCPay STAGING SSH" "54.36.119.150" 22;
        mkService "BTCPay STAGING HTTPS" "54.36.119.150" 443;
        mkService "Bitmoon STAGING SSH" "57.129.91.206" 22;
        mkService "Bitmoon STAGING HTTPS" "57.129.91.206" 443;
        mkService "ARES SSH" "188.12.149.216" 22;
        mkService "ARES Bitcoin RPC" "188.12.149.216" 8332;
        mkService "CRATOS SSH" "btcppl.mywire.org" 22];
     WEBSITES :=
       [mkWebsite "BitcoinPeople Main" "https://bitcoinpeople.it" (Some 200);
        mkWebsite "BitcoinPeople Pay" "https://pay.bitcoinpeople.it" (Some 200);
        mkWebsite "BPay" "https://bpay.bitcoinpeople.it" (Some 200);
        mkWebsite "Bagheera" "https://bagheera.bitcoinpeople.it" (Some 200);
        mkWebsite "Bitmoon Main" "https://bitmoon.it" (Some 200);
        mkWebsite "BTCPay PROD (IP)" "https://51.75.90.145" (Some 200);
        mkWebsite "Bitmoon API PROD (IP)" "https://54.36.114.17" (Some 200)];
     DOCKER_CONTAINERS := [];
     SYSTEMD_SERVICES := [] |}.

(** The probes one round over the targets of [_init_targets] is expected to
    issue: one per entry, of the kind of its list, in the order of the
    lists. *)
Definition endpoint_probes (cfg : Config) (e : Endpoints) : list ProbeCall :=
  ((λ srv, Ping (PStr (server_host srv)) (TIMEOUT cfg)) <$> SERVERS e)
  ++ ((λ svc, TcpPort (PStr (service_host svc)) (PInt (service_port svc))
                (TIMEOUT cfg)) <$> SERVICES e)
  ++ ((λ site, Http (PStr (website_url site))
                 (PInt (default 200 (website_expected_status site)))
                 (TIMEOUT cfg)) <$> WEBSITES e)
  ++ ((λ container, Docker (PStr (entry_name container)) (TIMEOUT cfg))
        <$> DOCKER_CONTAINERS e)
  ++ ((λ service, Systemd (PStr (entry_name service)) (TIMEOUT cfg))
        <$> SYSTEMD_SERVICES e).

(** Some probe of a list of results succeeded. *)
Definition any_success (rs : list ProbeResult) : bool :=
  existsb (λ r, r.1.1) rs.

(** What identifies a target: the attributes no check ever assigns. *)
Definition identity (t : Target) : string * string * gmap string PyVal :=
  (name t, type t, config t).

(** The stamp of a target agrees with its status: an Unknown target has
    never changed status, a Down target has. *)
Definition stamp_invariant (t : Target) : Prop :=
  (status t = UNKNOWN → last_status_change t = None)
  ∧ (status t = DOWN → is_Some (last_status_change t)).

(** The error text of a target whose counter is at zero is empty. *)
Definition clean_invariant (t : Target) : Prop :=
  0 ≤ consecutive_failures t
  ∧ (consecutive_failures t = 0 → error_message t = "").

(** A string without the letter P. *)
Fixpoint no_P (s : string) : bool :=
  match s with
  | EmptyString => true
  | String c rest => negb (Ascii.eqb c "P") && no_P rest
  end.

(** * Properties *)

(** ** The world under the notifier *)

Lemma send_alert_outbox target is_down w :
  ∃ a, outbox (send_alert target is_down w) = outbox w ++ [AlertMsg a]
       ∧ alert_is_down a = is_down
       ∧ alert_name a = name target
       ∧ alert_error a =
           (if truthy (error_message target) && is_down
            then Some (error_message target) else None).
Proof.
  unfold send_alert. simpl.
  destruct (last_status_change target) as [since|]; [destruct is_down|]; simpl;
    eexists; (split; [reflexivity|]); simpl; auto.
Qed.

Lemma send_alert_probes target is_down w :
  probes (send_alert target is_down w) = probes w.
Proof.
  unfold send_alert. simpl.
  destruct (last_status_change target); [destruct is_down|]; reflexivity.
Qed.

Lemma send_alert_net target is_down w :
  net (send_alert target is_down w) = net w.
Proof.
  unfold send_alert. simpl.
  destruct (last_status_change target); [destruct is_down|]; reflexivity.
Qed.

Lemma send_alert_slept target is_down w :
  slept (send_alert target is_down w) = slept w.
Proof.
  unfold send_alert. simpl.
  destruct (last_status_change target); [destruct is_down|]; reflexivity.
Qed.

(** A recovery alert is written after the target has been stamped: the
    duration it shows runs from that stamp to the clock reading taken while
    the message is put together. *)
Lemma send_alert_recovered_downtime target since w :
  last_status_change target = Some since →
  ∃ a, outbox (send_alert target false w) = outbox w ++ [AlertMsg a]
       ∧ alert_is_down a = false
       ∧ alert_downtime a =
           Some (downtime_hms (clock w (S (ticks w)) - since)).
Proof.
  intros Hs. unfold send_alert. simpl. rewrite Hs. simpl.
  eexists. split; [reflexivity|]. simpl. auto.
Qed.

(** ** One step of the state machine *)

(** What a successful probe does to the target. *)
Lemma update_success cfg t rt msg w :
  let t' := (check_target_update cfg t (true, rt, msg) w).1 in
  status t' = UP ∧ consecutive_failures t' = 0
  ∧ response_time t' = rt ∧ error_message t' = msg
  ∧ name t' = name t ∧ type t' = type t ∧ config t' = config t.
Proof.
  unfold check_target_update. simpl.
  case_bool_decide; simpl; [destruct (ALERT_ON_RECOVERY cfg); simpl|]; auto 10.
Qed.

(** What a failed probe does to the target. *)
Lemma update_failure cfg t rt msg w :
  let t' := (check_target_update cfg t (false, rt, msg) w).1 in
  consecutive_failures t' = consecutive_failures t + 1
  ∧ status t' =
      (if CONSECUTIVE_FAILURES cfg <=? consecutive_failures t + 1
       then DOWN else status t)
  ∧ response_time t' = rt ∧ error_message t' = msg
  ∧ name t' = name t ∧ type t' = type t ∧ config t' = config t.
Proof.
  unfold check_target_update. simpl.
  destruct (CONSECUTIVE_FAILURES cfg <=? consecutive_failures t + 1); simpl;
    [case_bool_decide as Hs; simpl|]; auto 10.
Qed.

(** The messages of one step: none, or one alert that goes with a change of
    status between Down and not Down. *)
Lemma update_outbox cfg t r w :
  let t' := (check_target_update cfg t r w).1 in
  let w' := (check_target_update cfg t r w).2 in
  ∃ ms, outbox w' = outbox w ++ ms
    ∧ ((ms = []
        ∧ (ALERT_ON_RECOVERY cfg = true → (status t = DOWN ↔ status t' = DOWN)))
       ∨ (∃ a, ms = [AlertMsg a] ∧ alert_is_down a = true
               ∧ status t ≠ DOWN ∧ status t' = DOWN ∧ r.1.1 = false)
       ∨ (∃ a, ms = [AlertMsg a] ∧ alert_is_down a = false
               ∧ status t = DOWN ∧ status t' = UP ∧ r.1.1 = true)).
Proof.
  step_cases cfg t r.
  - eexists. split; [reflexivity|]. right. right. eexists. auto.
  - exists []. rewrite app_nil_r. split; [reflexivity|]. left.
    split; [reflexivity|]. congruence.
  - exists []. rewrite app_nil_r. split; [reflexivity|]. left.
    split; [reflexivity|]. intros _. split; congruence.
  - eexists. split; [reflexivity|]. right. left. eexists. auto.
  - exists []. rewrite app_nil_r. split; [reflexivity|]. left.
    split; [reflexivity|]. intros _.
    assert (status t = DOWN) by (destruct (status t); congruence). tauto.
  - exists []. rewrite app_nil_r. split; [reflexivity|]. left.
    split; [reflexivity|]. intros _. tauto.
Qed.

(** ** Runs of the state machine *)

Lemma feed_app cfg t rs1 rs2 w :
  feed cfg t (rs1 ++ rs2) w =
  feed cfg (feed cfg t rs1 w).1 rs2 (feed cfg t rs1 w).2.
Proof.
  revert t w. induction rs1 as [|r rs1 IH]; intros t w; simpl; [reflexivity|].
  destruct (check_target_update cfg t r w) as [t' w']. apply IH.
Qed.

Lemma feed_snoc cfg t rs r w :
  feed cfg t (rs ++ [r]) w =
  check_target_update cfg (feed cfg t rs w).1 r (feed cfg t rs w).2.
Proof.
  rewrite feed_app. simpl.
  destruct (check_target_update _ _ _ _). reflexivity.
Qed.

Lemma feed_outbox cfg t rs w :
  ∃ ms, outbox (feed cfg t rs w).2 = outbox w ++ ms.
Proof.
  revert t w. induction rs as [|r rs IH]; intros t w; simpl.
  - exists []. by rewrite app_nil_r.
  - destruct (update_outbox cfg t r w) as (ms & Hms & _).
    destruct (check_target_update cfg t r w) as [t' w']. simpl in Hms.
    destruct (IH t' w') as (ms' & Hms'). exists (ms ++ ms').
    by rewrite Hms', Hms, app_assoc.
Qed.

Lemma emitted_cons cfg t r rs w :
  emitted cfg t (r :: rs) w =
  emitted cfg t [r] w ++
  emitted cfg (check_target_update cfg t r w).1 rs (check_target_update cfg t r w).2.
Proof.
  unfold emitted. simpl.
  destruct (update_outbox cfg t r w) as (ms & Hms & _).
  destruct (check_target_update cfg t r w) as [t' w']. simpl in *.
  destruct (feed_outbox cfg t' rs w') as (ms' & Hms').
  rewrite Hms', (drop_app_length (outbox w')), Hms.
  rewrite <- app_assoc, !drop_app_length. reflexivity.
Qed.

Lemma leading_failures_nonneg rs : 0 ≤ leading_failures rs.
Proof. induction rs as [|r rs IH]; simpl; [lia|]. destruct (r.1.1); lia. Qed.

Lemma trailing_failures_snoc rs r :
  trailing_failures (rs ++ [r]) =
  if r.1.1 then 0 else 1 + trailing_failures rs.
Proof. unfold trailing_failures. rewrite reverse_snoc. reflexivity. Qed.

(** The step keeps the invariant of the data model. *)
Lemma update_down_invariant cfg t r w :
  down_invariant cfg t →
  down_invariant cfg (check_target_update cfg t r w).1.
Proof.
  unfold down_invariant. intros Hinv.
  step_cases cfg t r; try congruence.
  - intros _. apply Z.leb_le in Hthr. exact Hthr.
  - intros Hd. specialize (Hinv Hd). lia.
  - intros Hd. specialize (Hinv Hd). lia.
Qed.

(** So does a whole call of [check_target], whatever the probe answers and
    also when a missing configuration key makes it raise. *)
Lemma check_target_down_invariant cfg t w :
  down_invariant cfg t → down_invariant cfg (check_target cfg t w).1.2.
Proof.
  intros Hinv. unfold check_target.
  destruct (check_target_probe cfg t w) as [[r|e] w']; simpl; [|exact Hinv].
  pose proof (update_down_invariant cfg t r w' Hinv) as H.
  destruct (check_target_update cfg t r w'). exact H.
Qed.

(** On a fresh target the counter is the number of failures the probes so
    far end with, and it stays under the threshold while the target is not
    Down. *)
Lemma feed_counter cfg n ty cf rs w :
  consecutive_failures (feed cfg (new_Target n ty cf) rs w).1
    = trailing_failures rs
  ∧ (status (feed cfg (new_Target n ty cf) rs w).1 ≠ DOWN →
     consecutive_failures (feed cfg (new_Target n ty cf) rs w).1
       < Z.max 1 (CONSECUTIVE_FAILURES cfg)).
Proof.
  induction rs as [|r rs IH] using rev_ind.
  - simpl. split; [reflexivity|lia].
  - rewrite feed_snoc, trailing_failures_snoc.
    destruct IH as [IHc IHs].
    set (t := (feed cfg (new_Target n ty cf) rs w).1) in *.
    set (w1 := (feed cfg (new_Target n ty cf) rs w).2).
    destruct r as [[ok rt] msg]. destruct ok; cbn [fst snd].
    + destruct (update_success cfg t rt msg w1) as (Hs & Hc & _).
      rewrite Hc. split; [reflexivity|lia].
    + destruct (update_failure cfg t rt msg w1) as (Hc & Hs & _).
      rewrite Hc, Hs, IHc. split; [lia|].
      destruct (CONSECUTIVE_FAILURES cfg <=? trailing_failures rs + 1) eqn:Hthr;
        [congruence|].
      apply Z.leb_gt in Hthr. intros _. lia.
Qed.

Lemma feed_trace_down_invariant cfg t rs w :
  down_invariant cfg t → Forall (down_invariant cfg) (feed_trace cfg t rs w).
Proof.
  revert t w. induction rs as [|r rs IH]; intros t w Hinv; simpl.
  - constructor.
  - pose proof (update_down_invariant cfg t r w Hinv) as Hstep.
    destruct (check_target_update cfg t r w) as [t' w']. simpl in Hstep.
    constructor; [exact Hstep|]. apply IH, Hstep.
Qed.

(** The threshold of the deployed configuration is 2, whatever the
    environment holds. *)
Lemma CONFIG_threshold e : CONSECUTIVE_FAILURES (CONFIG e) = 2.
Proof. reflexivity. Qed.

(** C2: for a target that starts in its initial state (status Unknown, no
    failure counted) and any sequence of probe results fed to it, the state
    after each step satisfies: status Down implies that the counter of
    consecutive failures is at least the configured threshold. *)
Theorem C2_down_implies_threshold cfg n ty cf rs w t :
  t ∈ feed_trace cfg (new_Target n ty cf) rs w →
  status t = DOWN →
  CONSECUTIVE_FAILURES cfg ≤ consecutive_failures t.
Proof.
  intros Hin Hdown.
  assert (Hall : Forall (down_invariant cfg)
                   (feed_trace cfg (new_Target n ty cf) rs w)).
  { apply feed_trace_down_invariant. unfold down_invariant. simpl. congruence. }
  rewrite Forall_forall in Hall. exact (Hall t Hin Hdown).
Qed.

Lemma C2_witness :
  let cfg := CONFIG empty_env in
  let w := world_at 0 1000000 healthy_net in
  let rs := [probe_fail; probe_ok; probe_fail; probe_fail; probe_fail] in
  let t := (feed cfg (new_Target "ARES SSH" "TCP:22" ∅) rs w).1 in
  t ∈ feed_trace cfg (new_Target "ARES SSH" "TCP:22" ∅) rs w
  ∧ status t = DOWN
  ∧ 2 ≤ consecutive_failures t.
Proof.
  intros cfg w rs t.
  assert (Hin : t ∈ feed_trace cfg (new_Target "ARES SSH" "TCP:22" ∅) rs w).
  { apply (list_elem_of_lookup_2 _ 4%nat). vm_compute. reflexivity. }
  assert (Hdown : status t = DOWN) by (vm_compute; reflexivity).
  split; [exact Hin|]. split; [exact Hdown|].
  exact (C2_down_implies_threshold cfg "ARES SSH" "TCP:22" ∅ rs w t Hin Hdown).
Defined.

(** C3: in any sequence of probe outcomes applied to a fresh target, a step
    turns the status to Down only if its probe failed and the failures in a
    row, this one included, have just reached the threshold; and a
    successful probe at any point sets the counter to 0 and turns a Down
    target Up in that same step. *)
Theorem C3_down_at_threshold_up_on_success cfg n ty cf pre r w :
  let t := (feed cfg (new_Target n ty cf) pre w).1 in
  let t' := (feed cfg (new_Target n ty cf) (pre ++ [r]) w).1 in
  (status t ≠ DOWN → status t' = DOWN →
     r.1.1 = false
     ∧ consecutive_failures t' = trailing_failures (pre ++ [r])
     ∧ CONSECUTIVE_FAILURES cfg ≤ trailing_failures (pre ++ [r])
     ∧ trailing_failures (pre ++ [r]) = Z.max 1 (CONSECUTIVE_FAILURES cfg))
  ∧ (r.1.1 = true →
     consecutive_failures t' = 0 ∧ (status t = DOWN → status t' = UP)).
Proof.
  intros t t'.
  destruct (feed_counter cfg n ty cf pre w) as [Hc Hlt].
  destruct (feed_counter cfg n ty cf (pre ++ [r]) w) as [Hc' _].
  fold t in Hc, Hlt. fold t' in Hc'.
  assert (Ht' : t' = (check_target_update cfg t r
                        (feed cfg (new_Target n ty cf) pre w).2).1).
  { unfold t', t. rewrite feed_snoc. reflexivity. }
  pose proof (leading_failures_nonneg (reverse pre)) as Hnn.
  fold (trailing_failures pre) in Hnn.
  destruct r as [[ok rt] msg]. destruct ok; cbn [fst snd].
  - destruct (update_success cfg t rt msg
                (feed cfg (new_Target n ty cf) pre w).2) as (Hs & Hz & _).
    rewrite <- Ht' in Hs, Hz. split.
    + intros _ Hd. congruence.
    + intros _. split; [exact Hz|]. intros _. exact Hs.
  - destruct (update_failure cfg t rt msg
                (feed cfg (new_Target n ty cf) pre w).2) as (Hk & Hs & _).
    rewrite <- Ht' in Hk, Hs. split; [|discriminate].
    intros Hnd Hd. specialize (Hlt Hnd).
    rewrite trailing_failures_snoc in *. cbn [fst snd] in *.
    destruct (CONSECUTIVE_FAILURES cfg <=? consecutive_failures t + 1) eqn:Hthr;
      [|congruence].
    apply Z.leb_le in Hthr. repeat split; [exact Hc'|lia|lia].
Qed.

Lemma C3_witness :
  let cfg := CONFIG empty_env in
  let w := world_at 0 1000000 healthy_net in
  let fresh := new_Target "CRATOS" "Server (Ping)" ∅ in
  let t := (feed cfg fresh [probe_fail] w).1 in
  let t' := (feed cfg fresh ([probe_fail] ++ [probe_fail]) w).1 in
  status t ≠ DOWN ∧ status t' = DOWN
  ∧ consecutive_failures t' = 2
  ∧ trailing_failures ([probe_fail] ++ [probe_fail]) = 2.
Proof.
  intros cfg w fresh t t'.
  assert (Hnd : status t ≠ DOWN) by (vm_compute; discriminate).
  assert (Hd : status t' = DOWN) by (vm_compute; reflexivity).
  destruct (C3_down_at_threshold_up_on_success cfg "CRATOS" "Server (Ping)"
              ∅ [probe_fail] probe_fail w) as [Hdown _].
  destruct (Hdown Hnd Hd) as (_ & Hc & _ & Hmax).
  split; [exact Hnd|]. split; [exact Hd|]. split.
  - exact (eq_trans Hc Hmax).
  - exact Hmax.
Defined.

(** C5: a step changes [last_status_change] only when it turns the status
    to Down (from Unknown or Up, the threshold being reached) or from Down
    to Up (on a success); a step that leaves the status as it was leaves
    [last_status_change] as it was. *)
Theorem C5_last_status_change_frame cfg t r w :
  let t' := (check_target_update cfg t r w).1 in
  (last_status_change t' ≠ last_status_change t →
     (status t ≠ DOWN ∧ status t' = DOWN ∧ r.1.1 = false
        ∧ CONSECUTIVE_FAILURES cfg ≤ consecutive_failures t')
     ∨ (status t = DOWN ∧ status t' = UP ∧ r.1.1 = true))
  ∧ (status t' = status t → last_status_change t' = last_status_change t).
Proof.
  step_cases cfg t r.
  - split; [intros _; right; auto|]. congruence.
  - split; [intros _; right; auto|]. congruence.
  - split; [congruence|reflexivity].
  - apply Z.leb_le in Hthr. split; [intros _; left; auto|]. congruence.
  - split; [congruence|reflexivity].
  - split; [congruence|reflexivity].
Qed.

Lemma C5_witness :
  let cfg := CONFIG empty_env in
  let w := world_at 7200000000 5 healthy_net in
  let t := target_in "BPay" "HTTP/HTTPS" DOWN (Some 3600000000) 4 in
  let t' := (check_target_update cfg t probe_ok w).1 in
  last_status_change t' ≠ last_status_change t
  ∧ status t = DOWN ∧ status t' = UP.
Proof.
  intros cfg w t t'.
  assert (Hne : last_status_change t' ≠ last_status_change t)
    by (vm_compute; discriminate).
  destruct (C5_last_status_change_frame cfg t probe_ok w) as [Hchg _].
  destruct (Hchg Hne) as [(Hnd & _)|(Hd & Hu & _)].
  - exfalso. apply Hnd. vm_compute. reflexivity.
  - split; [exact Hne|]. split; [exact Hd|exact Hu].
Defined.

(** A step that keeps the status keeps the stamp, and so does a whole call
    of [check_target], which either makes one step or, on a missing
    configuration key, leaves the target alone. *)
Lemma update_keeps_stamp cfg t r w :
  status (check_target_update cfg t r w).1 = status t →
  last_status_change (check_target_update cfg t r w).1 = last_status_change t.
Proof. step_cases cfg t r; congruence. Qed.

Lemma check_target_keeps_stamp cfg t w :
  status (check_target cfg t w).1.2 = status t →
  last_status_change (check_target cfg t w).1.2 = last_status_change t.
Proof.
  unfold check_target.
  destruct (check_target_probe cfg t w) as [[r|e] w']; simpl; [|reflexivity].
  pose proof (update_keeps_stamp cfg t r w') as Hframe.
  destruct (check_target_update cfg t r w'). exact Hframe.
Qed.

(** ** The alerts of a run *)

Lemma emitted_nil cfg t w : emitted cfg t [] w = [].
Proof. unfold emitted. simpl. apply drop_all. Qed.

Lemma emitted_one cfg t r w ms :
  outbox (check_target_update cfg t r w).2 = outbox w ++ ms →
  emitted cfg t [r] w = ms.
Proof.
  intros Hms. unfold emitted. simpl.
  destruct (check_target_update cfg t r w) as [t' w']. simpl in *.
  rewrite Hms. apply drop_app_length.
Qed.

(** With the recovery alert switched on, the alerts a run emits alternate,
    and the first of them is a Down alert exactly when the run starts on a
    target that is not Down. *)
Lemma emitted_flags_shape cfg rs :
  ALERT_ON_RECOVERY cfg = true →
  ∀ t w,
    alternates (alert_flags (emitted cfg t rs w)) = true
    ∧ ∀ b, head (alert_flags (emitted cfg t rs w)) = Some b →
           b = bool_decide (status t ≠ DOWN).
Proof.
  intros Halert. induction rs as [|r rs IH]; intros t w.
  - rewrite emitted_nil. simpl. split; [reflexivity|discriminate].
  - rewrite emitted_cons. unfold alert_flags. rewrite omap_app.
    fold (alert_flags (emitted cfg t [r] w)).
    destruct (update_outbox cfg t r w) as (ms & Hms & Hcases).
    rewrite (emitted_one cfg t r w ms Hms).
    destruct (IH (check_target_update cfg t r w).1
                 (check_target_update cfg t r w).2) as [IHalt IHhead].
    unfold alert_flags in IHalt, IHhead.
    set (fs := omap _ (emitted cfg (check_target_update cfg t r w).1 rs
                         (check_target_update cfg t r w).2)) in *.
    destruct Hcases as [[-> Hsame]|[(a & -> & Ha & Hnd & Hd & _)
                                   |(a & -> & Ha & Hd & Hu & _)]]; simpl.
    + split; [exact IHalt|]. intros b Hb. rewrite (IHhead b Hb).
      specialize (Hsame Halert).
      apply bool_decide_ext. tauto.
    + rewrite Ha. split.
      * destruct fs as [|b fs']; [reflexivity|].
        assert (Hb : b = false).
        { rewrite (IHhead b eq_refl). apply bool_decide_eq_false_2.
          intros H. exact (H Hd). }
        subst b. exact IHalt.
      * intros b [= <-]. symmetry. apply bool_decide_eq_true_2. exact Hnd.
    + rewrite Ha. split.
      * destruct fs as [|b fs']; [reflexivity|].
        assert (Hb : b = true).
        { rewrite (IHhead b eq_refl). apply bool_decide_eq_true_2.
          rewrite Hu. discriminate. }
        subst b. exact IHalt.
      * intros b [= <-]. symmetry. apply bool_decide_eq_false_2. tauto.
Qed.

(** C4: with the recovery alert switched on, as [CONFIG] has it, in the
    notifications one target emits while any sequence of probe results is
    fed to it no two Down alerts follow each other without a Recovered
    alert between them and no two Recovered alerts without a Down alert
    between them; a step emits at most one message, and only alerts are
    emitted. *)
Theorem C4_alerts_alternate cfg t rs w :
  ALERT_ON_RECOVERY cfg = true →
  alternates (alert_flags (emitted cfg t rs w)) = true
  ∧ length (alert_flags (emitted cfg t rs w)) = length (emitted cfg t rs w)
  ∧ ∀ r, (length (emitted cfg t [r] w) ≤ 1)%nat.
Proof.
  intros Halert. split; [apply emitted_flags_shape, Halert|]. split.
  - revert t w. induction rs as [|r rs IH]; intros t w.
    + rewrite emitted_nil. reflexivity.
    + rewrite emitted_cons. unfold alert_flags. rewrite omap_app.
      rewrite !length_app. f_equal; [|apply IH].
      destruct (update_outbox cfg t r w) as (ms & Hms & Hcases).
      rewrite (emitted_one cfg t r w ms Hms).
      destruct Hcases as [[-> _]|[(a & -> & _)|(a & -> & _)]]; reflexivity.
  - intros r. destruct (update_outbox cfg t r w) as (ms & Hms & Hcases).
    rewrite (emitted_one cfg t r w ms Hms).
    destruct Hcases as [[-> _]|[(a & -> & _)|(a & -> & _)]]; simpl; lia.
Qed.

Lemma C4_witness :
  let cfg := CONFIG empty_env in
  let w := world_at 0 1000000 healthy_net in
  let t := new_Target "Bitmoon Main" "HTTP/HTTPS" ∅ in
  let rs := [probe_fail; probe_fail; probe_fail; probe_ok; probe_ok;
             probe_fail; probe_fail; probe_ok] in
  ALERT_ON_RECOVERY cfg = true
  ∧ alert_flags (emitted cfg t rs w) = [true; false; true; false]
  ∧ alternates (alert_flags (emitted cfg t rs w)) = true.
Proof.
  intros cfg w t rs.
  assert (Halert : ALERT_ON_RECOVERY cfg = true) by reflexivity.
  split; [exact Halert|]. split; [vm_compute; reflexivity|].
  exact (proj1 (C4_alerts_alternate cfg t rs w Halert)).
Defined.

(** ** The recovery alert *)

(** On a recovery the target is stamped first and the alert is written from
    the stamped target: the duration in the alert is the time between the
    stamp and the writing of the message, whatever the time at which the
    target went Down. *)
Lemma recovery_alert_downtime cfg t rt msg w :
  ALERT_ON_RECOVERY cfg = true →
  status t = DOWN →
  let t' := (check_target_update cfg t (true, rt, msg) w).1 in
  let w' := (check_target_update cfg t (true, rt, msg) w).2 in
  last_status_change t' = Some (clock w (S (ticks w)))
  ∧ ∃ a, outbox w' = outbox w ++ [AlertMsg a]
      ∧ alert_is_down a = false
      ∧ alert_downtime a =
          Some (downtime_hms
                  (clock w (S (S (S (ticks w)))) - clock w (S (ticks w)))).
Proof.
  intros Halert Hdown. unfold check_target_update. simpl.
  rewrite bool_decide_eq_true_2 by exact Hdown. rewrite Halert. simpl.
  split; [reflexivity|]. eexists. split; [reflexivity|]. simpl. auto.
Qed.

(** C1 (as the program behaves): a target Down since [t0], probed with
    success one hour later, gets one Recovered alert, and the downtime that
    alert reports is 0h 0m 0s, not the hour that went by since [t0]. *)
Theorem C1_recovered_downtime_lost :
  let cfg := CONFIG empty_env in
  let t0 := 1000000000 in
  let w := world_at (t0 + 3600000000) 250 healthy_net in
  let t := target_in "BPay" "HTTP/HTTPS" DOWN (Some t0) 5 in
  let t' := (check_target_update cfg t probe_ok w).1 in
  let w' := (check_target_update cfg t probe_ok w).2 in
  status t' = UP
  ∧ outbox w' =
      [AlertMsg {| alert_is_down := false; alert_name := "BPay";
                   alert_type := "HTTP/HTTPS";
                   alert_now := t0 + 3600000000 + 500;
                   alert_error := None; alert_response := Some 12000;
                   alert_downtime := Some (0, 0, 0) |}]
  ∧ downtime_hms (clock w (ticks w) - t0) = (1, 0, 0).
Proof. vm_compute. auto. Qed.

(** ** Probes that run into their timeout *)

Lemma check_ping_timeout cfg host w e :
  ping_proc (net w) (length (probes w)) host (TIMEOUT cfg) = Raised e →
  is_TimeoutError e = true →
  (check_ping cfg host w).1 = (false, 0, "Ping timeout").
Proof. intros Hp He. unfold check_ping. simpl. rewrite Hp, He. reflexivity. Qed.

Lemma check_tcp_port_timeout cfg host port w e :
  tcp_conn (net w) (length (probes w)) host port (TIMEOUT cfg) = Raised e →
  is_TimeoutError e = true →
  (check_tcp_port cfg host port w).1 = (false, 0, "Timeout porta " +:+ py_str port).
Proof.
  intros Hp He. unfold check_tcp_port, tcp_failure. simpl.
  rewrite Hp, He. reflexivity.
Qed.

Lemma check_http_timeout cfg url expected w e :
  http_get (net w) (length (probes w)) url (TIMEOUT cfg) = Raised e →
  is_TimeoutError e = true →
  (check_http cfg url expected w).1 = (false, 0, "HTTP timeout").
Proof. intros Hp He. unfold check_http. simpl. rewrite Hp, He. reflexivity. Qed.

(** The docker and systemd probes have no handler of their own for the
    timeout: the error detail is whatever text the exception carries. *)
Lemma check_docker_raised cfg container w e :
  docker_inspect (net w) (length (probes w)) container (TIMEOUT cfg) = Raised e →
  (check_docker cfg container w).1 = (false, 0, exn_str e).
Proof. intros Hp. unfold check_docker. simpl. rewrite Hp. reflexivity. Qed.

Lemma check_systemd_raised cfg service w e :
  systemctl (net w) (length (probes w)) service (TIMEOUT cfg) = Raised e →
  (check_systemd cfg service w).1 = (false, 0, exn_str e).
Proof. intros Hp. unfold check_systemd. simpl. rewrite Hp. reflexivity. Qed.

(** C8 (as the program behaves): when every probe runs into its timeout,
    all five return [ok = false] and none raises; ping, TCP and HTTP name
    the timeout in the error detail, docker and systemd return an empty
    error detail. *)
Theorem C8_timeout_error_details :
  let cfg := CONFIG empty_env in
  let w := world_at 0 10000000 stalled_net in
  (check_ping cfg (PStr "51.75.90.145") w).1 = (false, 0, "Ping timeout")
  ∧ (check_tcp_port cfg (PStr "51.75.90.145") (PInt 443) w).1
      = (false, 0, "Timeout porta 443")
  ∧ (check_http cfg (PStr "https://bitmoon.it") (PInt 200) w).1
      = (false, 0, "HTTP timeout")
  ∧ (check_docker cfg (PStr "btcpayserver") w).1 = (false, 0, "")
  ∧ (check_systemd cfg (PStr "nginx") w).1 = (false, 0, "").
Proof. vm_compute. auto 10. Qed.

(** ** Targets whose type selects no probe *)

Lemma check_target_no_probe cfg t w :
  selects_no_probe (type t) = true →
  check_target cfg t w =
  (None, (check_target_update cfg t (false, 0, "") w).1,
         (check_target_update cfg t (false, 0, "") w).2).
Proof.
  unfold selects_no_probe. rewrite !andb_true_iff, !negb_true_iff.
  intros ((((Hping & Htcp) & Hhttp) & Hdocker) & Hsystemd).
  unfold check_target, check_target_probe.
  rewrite Hping, Htcp, Hhttp, Hdocker, Hsystemd.
  destruct (check_target_update cfg t (false, 0, "") w). reflexivity.
Qed.

(** The step itself issues no probe. *)
Lemma update_probes cfg t r w :
  probes (check_target_update cfg t r w).2 = probes w.
Proof. step_cases cfg t r; reflexivity. Qed.

(** The outbox after a failed probe. *)
Lemma update_failure_outbox cfg t rt msg w :
  let w' := (check_target_update cfg t (false, rt, msg) w).2 in
  (CONSECUTIVE_FAILURES cfg ≤ consecutive_failures t + 1 → status t ≠ DOWN →
   ∃ a, outbox w' = outbox w ++ [AlertMsg a]
        ∧ alert_is_down a = true
        ∧ alert_error a = (if truthy msg then Some msg else None))
  ∧ (consecutive_failures t + 1 < CONSECUTIVE_FAILURES cfg ∨ status t = DOWN →
     outbox w' = outbox w).
Proof.
  unfold check_target_update. simpl.
  destruct (CONSECUTIVE_FAILURES cfg <=? consecutive_failures t + 1) eqn:Hthr;
    simpl; [case_bool_decide as Hprev; simpl|].
  - split.
    + intros _ _. eexists. split; [reflexivity|]. simpl.
      rewrite andb_true_r. auto.
    + apply Z.leb_le in Hthr. intros [Hlt|Hd]; [lia|contradiction].
  - split; [intros _ Hnd; contradiction|reflexivity].
  - apply Z.leb_gt in Hthr. split; [lia|reflexivity].
Qed.

(** Repeated checks of a fresh target whose type selects no probe: the
    counter follows the number of checks, the target is Down from the check
    that reaches the threshold on, and that check sends the one alert. *)
Lemma check_repeatedly_no_probe cfg nm ty cf n w :
  selects_no_probe ty = true →
  let tn := (check_repeatedly cfg n (new_Target nm ty cf) w).1 in
  let wn := (check_repeatedly cfg n (new_Target nm ty cf) w).2 in
  type tn = ty
  ∧ probes wn = probes w
  ∧ consecutive_failures tn = Z.of_nat n
  ∧ status tn =
      (if Z.max 1 (CONSECUTIVE_FAILURES cfg) <=? Z.of_nat n then DOWN else UNKNOWN)
  ∧ ∃ ms, outbox wn = outbox w ++ ms
      ∧ alert_flags ms =
          (if Z.max 1 (CONSECUTIVE_FAILURES cfg) <=? Z.of_nat n then [true] else [])
      ∧ Forall (λ m, ∀ a, m = AlertMsg a → alert_error a = None) ms.
Proof.
  intros Hty. induction n as [|n IH].
  - cbn [check_repeatedly fst snd].
    assert (Hz : (Z.max 1 (CONSECUTIVE_FAILURES cfg) <=? Z.of_nat 0) = false)
      by (apply Z.leb_gt; lia).
    rewrite Hz. repeat split; auto.
    exists []. rewrite app_nil_r. repeat split; auto.
  - cbn [check_repeatedly].
    destruct (check_repeatedly cfg n (new_Target nm ty cf) w) as [tn wn].
    cbn [fst snd] in IH.
    destruct IH as (Hty' & Hp & Hc & Hs & ms & Hms & Hfl & Herr).
    rewrite check_target_no_probe by (rewrite Hty'; exact Hty).
    cbn [fst snd].
    destruct (update_failure cfg tn 0 "" wn) as (Hc1 & Hs1 & _ & _ & _ & Hty1 & _).
    destruct (update_failure_outbox cfg tn 0 "" wn) as [Hsend Hquiet].
    rewrite update_probes.
    split; [congruence|]. split; [exact Hp|]. split; [lia|].
    rewrite Hs1. clear Hs1 Hc1 Hty1.
    destruct (Z.max 1 (CONSECUTIVE_FAILURES cfg) <=? Z.of_nat n) eqn:Hn.
    + apply Z.leb_le in Hn.
      assert (Hn' : (Z.max 1 (CONSECUTIVE_FAILURES cfg) <=? Z.of_nat (S n)) = true)
        by (apply Z.leb_le; lia).
      rewrite Hn'. split.
      * destruct (CONSECUTIVE_FAILURES cfg <=? consecutive_failures tn + 1);
          [reflexivity|exact Hs].
      * exists ms. rewrite Hquiet by (right; exact Hs). auto.
    + apply Z.leb_gt in Hn.
      destruct (CONSECUTIVE_FAILURES cfg <=? consecutive_failures tn + 1) eqn:Hn1.
      * apply Z.leb_le in Hn1.
        assert (Hn' : (Z.max 1 (CONSECUTIVE_FAILURES cfg) <=? Z.of_nat (S n)) = true)
          by (apply Z.leb_le; lia).
        rewrite Hn'. split; [reflexivity|].
        destruct (Hsend Hn1) as (a & Ha & Hd & He); [rewrite Hs; discriminate|].
        exists (ms ++ [AlertMsg a]). rewrite Ha, Hms, app_assoc.
        split; [reflexivity|]. unfold alert_flags in *. rewrite omap_app, Hfl.
        simpl. rewrite Hd. split; [reflexivity|].
        apply Forall_app. split; [exact Herr|].
        constructor; [|constructor]. intros a' [= <-]. exact He.
      * apply Z.leb_gt in Hn1.
        assert (Hn' : (Z.max 1 (CONSECUTIVE_FAILURES cfg) <=? Z.of_nat (S n)) = false)
          by (apply Z.leb_gt; lia).
        rewrite Hn'. split; [exact Hs|].
        exists ms. rewrite Hquiet by (left; exact Hn1). auto.
Qed.

(** C9: a target whose type contains none of "Ping", "TCP", "HTTP",
    "Docker", "Systemd" is checked without any probe being issued and
    without an exception; the check is recorded as a failure with an empty
    error message and a zero response time, so that the counter goes up by
    one; checked again and again from its fresh state, such a target is
    Down as soon as the threshold is reached, and exactly one Down alert
    (without error line) has then been sent. *)
Theorem C9_no_probe_type_goes_down cfg nm ty cf t w n :
  selects_no_probe ty = true →
  type t = ty →
  ((check_target cfg t w).1.1 = None
   ∧ probes (check_target cfg t w).2 = probes w
   ∧ error_message (check_target cfg t w).1.2 = ""
   ∧ response_time (check_target cfg t w).1.2 = 0
   ∧ consecutive_failures (check_target cfg t w).1.2 = consecutive_failures t + 1)
  ∧ (let tn := (check_repeatedly cfg n (new_Target nm ty cf) w).1 in
     let wn := (check_repeatedly cfg n (new_Target nm ty cf) w).2 in
     probes wn = probes w
     ∧ consecutive_failures tn = Z.of_nat n
     ∧ (status tn = DOWN ↔ Z.max 1 (CONSECUTIVE_FAILURES cfg) ≤ Z.of_nat n)
     ∧ ∃ ms, outbox wn = outbox w ++ ms
         ∧ alert_flags ms =
             (if Z.max 1 (CONSECUTIVE_FAILURES cfg) <=? Z.of_nat n
              then [true] else [])
         ∧ Forall (λ m, ∀ a, m = AlertMsg a → alert_error a = None) ms).
Proof.
  intros Hty Ht. split.
  - rewrite check_target_no_probe by (rewrite Ht; exact Hty). cbn [fst snd].
    destruct (update_failure cfg t 0 "" w) as (Hc & _ & Hrt & Hmsg & _).
    rewrite update_probes. auto.
  - destruct (check_repeatedly_no_probe cfg nm ty cf n w Hty)
      as (_ & Hp & Hc & Hs & Hout).
    split; [exact Hp|]. split; [exact Hc|]. split; [|exact Hout].
    rewrite Hs. destruct (Z.max 1 (CONSECUTIVE_FAILURES cfg) <=? Z.of_nat n) eqn:Hn;
      [apply Z.leb_le in Hn|apply Z.leb_gt in Hn]; split; auto; try lia.
    discriminate.
Qed.

Lemma C9_witness :
  let cfg := CONFIG empty_env in
  let w := world_at 0 1000000 stalled_net in
  let t := new_Target "redis" "Redis" ∅ in
  selects_no_probe "Redis" = true
  ∧ (check_target cfg t w).1.1 = None
  ∧ probes (check_repeatedly cfg 3 t w).2 = []
  ∧ status (check_repeatedly cfg 3 t w).1 = DOWN
  ∧ alert_flags (outbox (check_repeatedly cfg 3 t w).2) = [true].
Proof.
  intros cfg w t.
  assert (Hty : selects_no_probe "Redis" = true) by (vm_compute; reflexivity).
  destruct (C9_no_probe_type_goes_down cfg "redis" "Redis" ∅ t w 3 Hty eq_refl)
    as [(He & _) (Hp & _ & Hs & _)].
  split; [exact Hty|]. split; [exact He|]. split; [exact Hp|].
  split; [apply Hs; vm_compute; discriminate|]. vm_compute. reflexivity.
Defined.

(** ** The order of strings and of sort keys *)

Lemma ascii_compare_refl a : Ascii.compare a a = Eq.
Proof. unfold Ascii.compare. apply N.compare_refl. Qed.

Lemma ascii_compare_Lt_trans a b c :
  Ascii.compare a b = Lt → Ascii.compare b c = Lt → Ascii.compare a c = Lt.
Proof. unfold Ascii.compare. rewrite !N.compare_lt_iff. lia. Qed.

Lemma string_compare_refl s : String.compare s s = Eq.
Proof.
  induction s as [|a s IH]; simpl; [reflexivity|].
  rewrite ascii_compare_refl. exact IH.
Qed.

Lemma string_compare_Lt_trans a :
  ∀ b c, String.compare a b = Lt → String.compare b c = Lt →
         String.compare a c = Lt.
Proof.
  induction a as [|x a IH]; intros [|y b] [|z c]; simpl; try congruence.
  destruct (Ascii.compare x y) eqn:Exy; try discriminate;
    destruct (Ascii.compare y z) eqn:Eyz; try discriminate; intros H1 H2.
  - apply Ascii.compare_eq_iff in Exy, Eyz. subst.
    rewrite ascii_compare_refl. eapply IH; eassumption.
  - apply Ascii.compare_eq_iff in Exy. subst. rewrite Eyz. reflexivity.
  - apply Ascii.compare_eq_iff in Eyz. subst. rewrite Exy. reflexivity.
  - rewrite (ascii_compare_Lt_trans x y z Exy Eyz). reflexivity.
Qed.

Lemma string_ltb_irrefl s : String.ltb s s = false.
Proof. unfold String.ltb. rewrite string_compare_refl. reflexivity. Qed.

Lemma string_ltb_asym a b : String.ltb a b = true → String.ltb b a = false.
Proof.
  unfold String.ltb. rewrite (String.compare_antisym b a).
  destruct (String.compare a b); simpl; congruence.
Qed.

(** The strings are totally ordered: what is not above is below. *)
Lemma string_ltb_neg_trans a b c :
  String.ltb b a = false → String.ltb c b = false → String.ltb c a = false.
Proof.
  unfold String.ltb. intros Hba Hcb.
  destruct (String.compare c a) eqn:Hca; try reflexivity. exfalso.
  destruct (String.compare c b) eqn:Ecb; try discriminate.
  - apply String.compare_eq_iff in Ecb. subst. rewrite Hca in Hba. discriminate.
  - destruct (String.compare b a) eqn:Eba; try discriminate.
    + apply String.compare_eq_iff in Eba. subst. congruence.
    + assert (Hbc : String.compare b c = Lt)
        by (rewrite String.compare_antisym, Ecb; reflexivity).
      assert (Hab : String.compare a b = Lt)
        by (rewrite String.compare_antisym, Eba; reflexivity).
      pose proof (string_compare_Lt_trans a b c Hab Hbc) as Hac.
      rewrite String.compare_antisym, Hac in Hca. discriminate.
Qed.

Lemma string_ltb_leb a b : String.ltb b a = false → String.leb a b = true.
Proof.
  unfold String.ltb, String.leb. rewrite (String.compare_antisym a b).
  destruct (String.compare b a); simpl; congruence.
Qed.

Lemma key_lt_irrefl k : key_lt k k = false.
Proof.
  unfold key_lt. destruct k as [b s]. simpl.
  rewrite Bool.eqb_reflx. apply string_ltb_irrefl.
Qed.

Lemma key_lt_asym a b : key_lt a b = true → key_lt b a = false.
Proof.
  unfold key_lt. destruct a as [[] s1], b as [[] s2]; simpl;
    try congruence; apply string_ltb_asym.
Qed.

Lemma key_lt_neg_trans a b c :
  key_lt b a = false → key_lt c b = false → key_lt c a = false.
Proof.
  unfold key_lt. destruct a as [[] s1], b as [[] s2], c as [[] s3]; simpl;
    try congruence; apply string_ltb_neg_trans.
Qed.

(** ** [sorted] is a stable sort *)

Section Sorting.
Context {A K : Type} (lt : K → K → bool) (key : A → K).
Hypothesis lt_irrefl : ∀ k, lt k k = false.
Hypothesis lt_asym : ∀ a b, lt a b = true → lt b a = false.
Hypothesis lt_neg_trans :
  ∀ a b c, lt b a = false → lt c b = false → lt c a = false.

Lemma insert_sorted_Permutation x l : insert_sorted lt key x l ≡ₚ x :: l.
Proof.
  induction l as [|y l IH]; simpl; [reflexivity|].
  destruct (lt (key y) (key x)); [|reflexivity].
  rewrite IH. apply Permutation_swap.
Qed.

Lemma sorted_Permutation l : sorted lt key l ≡ₚ l.
Proof.
  induction l as [|x l IH]; simpl; [reflexivity|].
  rewrite insert_sorted_Permutation, IH. reflexivity.
Qed.

Lemma insert_sorted_StronglySorted x l :
  StronglySorted (key_ordered lt key) l →
  StronglySorted (key_ordered lt key) (insert_sorted lt key x l).
Proof.
  induction 1 as [|y l Hl IH Hy]; simpl.
  - repeat constructor.
  - destruct (lt (key y) (key x)) eqn:Hyx.
    + constructor; [exact IH|].
      rewrite insert_sorted_Permutation. constructor; [|exact Hy].
      unfold key_ordered. apply lt_asym, Hyx.
    + constructor; [constructor; assumption|].
      constructor; [exact Hyx|].
      eapply Forall_impl; [exact Hy|]. unfold key_ordered.
      intros z Hz. eapply lt_neg_trans; eassumption.
Qed.

Lemma sorted_StronglySorted l :
  StronglySorted (key_ordered lt key) (sorted lt key l).
Proof.
  induction l as [|x l IH]; simpl; [constructor|].
  apply insert_sorted_StronglySorted, IH.
Qed.

(** Stability: the elements that carry one key keep the order they had. *)
Lemma insert_sorted_stable `{EqDecision K} k x l :
  filter (λ y, key y = k) (insert_sorted lt key x l)
  = filter (λ y, key y = k) (x :: l).
Proof.
  induction l as [|y l IH]; simpl; [reflexivity|].
  destruct (lt (key y) (key x)) eqn:Hyx; [|reflexivity].
  rewrite filter_cons, IH, !filter_cons.
  destruct (decide (key y = k)) as [Hy|Hy];
    destruct (decide (key x = k)) as [Hx|Hx]; try reflexivity.
  rewrite Hy, Hx, lt_irrefl in Hyx. discriminate.
Qed.

Lemma sorted_stable `{EqDecision K} k l :
  filter (λ y, key y = k) (sorted lt key l) = filter (λ y, key y = k) l.
Proof.
  induction l as [|x l IH]; simpl; [reflexivity|].
  rewrite insert_sorted_stable, !filter_cons, IH. reflexivity.
Qed.

Lemma StronglySorted_lookup (R : A → A → Prop) l :
  StronglySorted R l →
  ∀ i j x y, (i < j)%nat → l !! i = Some x → l !! j = Some y → R x y.
Proof.
  induction 1 as [|a l Hl IH Ha]; intros i j x y Hij Hi Hj.
  - discriminate.
  - destruct j as [|j]; [lia|]. destruct i as [|i]; simpl in *.
    + injection Hi as <-. rewrite Forall_lookup in Ha. eapply Ha, Hj.
    + eapply (IH i j); [lia|eassumption|eassumption].
Qed.
End Sorting.

(** ** The status report *)

Lemma py_sum_ones {A} (l : list A) : py_sum ((λ _, 1) <$> l) = Z.of_nat (length l).
Proof.
  unfold py_sum.
  assert (H : ∀ acc, fold_left Z.add ((λ _ : A, 1) <$> l) acc
                     = acc + Z.of_nat (length l)).
  { induction l as [|x l IH]; intros acc; simpl; [lia|]. rewrite IH. lia. }
  rewrite H. lia.
Qed.

Lemma report_line_status t : line_status (report_line t) = status t.
Proof. unfold report_line. destruct (_ && _); reflexivity. Qed.

Lemma report_line_name t : line_name (report_line t) = name t.
Proof. unfold report_line. destruct (_ && _); reflexivity. Qed.

(** What [send_status_report] hands to [send_message]. *)
Lemma send_status_report_outbox targets w :
  outbox (send_status_report targets w) =
  outbox w ++
  [ReportMsg
     {| report_now := clock w (ticks w);
        report_up_count :=
          Z.of_nat (length (filter (λ t, status t = UP) targets));
        report_down_count :=
          Z.of_nat (length (filter (λ t, status t = DOWN) targets));
        report_lines := report_line <$> sorted key_lt sort_key targets |}].
Proof. unfold send_status_report. simpl. rewrite !py_sum_ones. reflexivity. Qed.

(** Two lines of a report, the first above the second: their keys are in
    order. *)
Lemma report_lines_ordered targets i j li lj :
  (i < j)%nat →
  (report_line <$> sorted key_lt sort_key targets) !! i = Some li →
  (report_line <$> sorted key_lt sort_key targets) !! j = Some lj →
  key_lt (bool_decide (line_status lj ≠ DOWN), line_name lj)
         (bool_decide (line_status li ≠ DOWN), line_name li) = false.
Proof.
  intros Hij Hi Hj.
  apply list_lookup_fmap_Some_1 in Hi as (ti & -> & Hi).
  apply list_lookup_fmap_Some_1 in Hj as (tj & -> & Hj).
  rewrite !report_line_status, !report_line_name.
  exact (StronglySorted_lookup (key_ordered key_lt sort_key) _
           (sorted_StronglySorted key_lt sort_key key_lt_asym key_lt_neg_trans
              targets) i j ti tj Hij Hi Hj).
Qed.

(** Read on statuses and names: a Down line has only Down lines above it,
    and two lines of one group carry their names in ascending order. *)
Lemma key_order_read (si sj : Status) (ni nj : string) :
  key_lt (bool_decide (sj ≠ DOWN), nj) (bool_decide (si ≠ DOWN), ni) = false →
  (sj = DOWN → si = DOWN)
  ∧ ((si = DOWN ↔ sj = DOWN) → String.leb ni nj = true).
Proof.
  unfold key_lt. simpl. intros H. split.
  - intros ->. destruct (decide (si = DOWN)) as [|Hne]; [assumption|exfalso].
    rewrite (bool_decide_eq_false_2 (DOWN ≠ DOWN)) in H by (intros Hf; apply Hf; reflexivity).
    rewrite (bool_decide_eq_true_2 (si ≠ DOWN)) in H by exact Hne.
    simpl in H. discriminate.
  - intros Hiff. apply string_ltb_leb.
    assert (Heq : bool_decide (sj ≠ DOWN) = bool_decide (si ≠ DOWN))
      by (apply bool_decide_ext; tauto).
    rewrite Heq, Bool.eqb_reflx in H. exact H.
Qed.


Lemma filter_status_lines (s : Status) (ts : list Target) :
  filter (λ l, line_status l = s) (report_line <$> ts)
  = report_line <$> filter (λ t, status t = s) ts.
Proof.
  induction ts as [|t ts IH]; [reflexivity|].
  rewrite fmap_cons, !filter_cons, IH, report_line_status.
  destruct (decide (status t = s)); reflexivity.
Qed.

(** C7: the report of [send_status_report] lists every target once, every
    Down target before every target that is not Down (so before every Up
    target), within each of the two groups by name in ascending order; the
    two counts of its header are the number of Up targets and the number of
    Down targets, which are also the numbers of Up and Down lines. *)
Theorem C7_report_order_and_counts targets w :
  ∃ r, outbox (send_status_report targets w) = outbox w ++ [ReportMsg r]
    ∧ report_lines r ≡ₚ report_line <$> targets
    ∧ (∀ i j li lj, (i < j)%nat →
         report_lines r !! i = Some li → report_lines r !! j = Some lj →
         (line_status lj = DOWN → line_status li = DOWN)
         ∧ ((line_status li = DOWN ↔ line_status lj = DOWN) →
            String.leb (line_name li) (line_name lj) = true))
    ∧ report_up_count r
        = Z.of_nat (length (filter (λ t, status t = UP) targets))
    ∧ report_down_count r
        = Z.of_nat (length (filter (λ t, status t = DOWN) targets))
    ∧ report_up_count r
        = Z.of_nat (length (filter (λ l, line_status l = UP) (report_lines r)))
    ∧ report_down_count r
        = Z.of_nat (length (filter (λ l, line_status l = DOWN) (report_lines r))).
Proof.
  eexists. split; [apply send_status_report_outbox|]. cbn [report_lines
    report_up_count report_down_count].
  split; [rewrite sorted_Permutation; reflexivity|].
  split.
  { intros i j li lj Hij Hi Hj. apply key_order_read.
    eapply report_lines_ordered; eassumption. }
  split; [reflexivity|]. split; [reflexivity|].
  rewrite !filter_status_lines, !length_fmap.
  rewrite !(sorted_Permutation key_lt sort_key targets). auto.
Qed.

Lemma C7_witness :
  let target n s := target_in n "HTTP/HTTPS" s None 0 in
  let targets := [target "A" UP; target "B" DOWN; target "C" DOWN;
                  target "D" UP] in
  let w := world_at 0 1 healthy_net in
  ∃ r, reports (outbox (send_status_report targets w)) = [r]
    ∧ line_name <$> report_lines r = ["B"; "C"; "A"; "D"]
    ∧ report_up_count r = 2 ∧ report_down_count r = 2.
Proof.
  intros target targets w.
  destruct (C7_report_order_and_counts targets w)
    as (r & Hr & _ & _ & Hup & Hdown & _).
  exists r.
  assert (Hrep : reports (outbox (send_status_report targets w)) = [r])
    by (rewrite Hr; reflexivity).
  split; [exact Hrep|]. split; [|split; [exact Hup|exact Hdown]].
  assert (H : reports (outbox (send_status_report targets w))
              = [{| report_now := 0; report_up_count := 2;
                    report_down_count := 2;
                    report_lines :=
                      [mkLine DOWN "B" None; mkLine DOWN "C" None;
                       mkLine UP "A" None; mkLine UP "D" None] |}])
    by (vm_compute; reflexivity).
  rewrite Hrep in H. injection H as ->. reflexivity.
Defined.

(** The scenario of the specification: A and D Up, B and C Down. *)
Example report_scenario :
  let target n s := target_in n "HTTP/HTTPS" s None 0 in
  reports (outbox (send_status_report
                     [target "A" UP; target "B" DOWN; target "C" DOWN;
                      target "D" UP] (world_at 0 1 healthy_net)))
  = [{| report_now := 0; report_up_count := 2; report_down_count := 2;
        report_lines :=
          [mkLine DOWN "B" None; mkLine DOWN "C" None;
           mkLine UP "A" None; mkLine UP "D" None] |}].
Proof. vm_compute. reflexivity. Qed.



(** ** The scheduler *)

Lemma check_ping_world cfg host w :
  outbox (check_ping cfg host w).2 = outbox w
  ∧ slept (check_ping cfg host w).2 = slept w
  ∧ probes (check_ping cfg host w).2 = probes w ++ [Ping host (TIMEOUT cfg)].
Proof. unfold check_ping. probe_cases. Qed.

Lemma check_tcp_port_world cfg host port w :
  outbox (check_tcp_port cfg host port w).2 = outbox w
  ∧ slept (check_tcp_port cfg host port w).2 = slept w
  ∧ probes (check_tcp_port cfg host port w).2
    = probes w ++ [TcpPort host port (TIMEOUT cfg)].
Proof. unfold check_tcp_port. probe_cases. Qed.

Lemma check_http_world cfg url expected w :
  outbox (check_http cfg url expected w).2 = outbox w
  ∧ slept (check_http cfg url expected w).2 = slept w
  ∧ probes (check_http cfg url expected w).2
    = probes w ++ [Http url expected (TIMEOUT cfg)].
Proof. unfold check_http. probe_cases. Qed.

Lemma check_docker_world cfg container w :
  outbox (check_docker cfg container w).2 = outbox w
  ∧ slept (check_docker cfg container w).2 = slept w
  ∧ probes (check_docker cfg container w).2
    = probes w ++ [Docker container (TIMEOUT cfg)].
Proof. unfold check_docker. probe_cases. Qed.

Lemma check_systemd_world cfg service w :
  outbox (check_systemd cfg service w).2 = outbox w
  ∧ slept (check_systemd cfg service w).2 = slept w
  ∧ probes (check_systemd cfg service w).2
    = probes w ++ [Systemd service (TIMEOUT cfg)].
Proof. unfold check_systemd. probe_cases. Qed.

(** The first half of [check_target] sends nothing, does not sleep and
    issues at most one probe. *)
Lemma check_target_probe_world cfg t w :
  outbox (check_target_probe cfg t w).2 = outbox w
  ∧ slept (check_target_probe cfg t w).2 = slept w
  ∧ ∃ cs, probes (check_target_probe cfg t w).2 = probes w ++ cs
          ∧ (length cs ≤ 1)%nat.
Proof.
  assert (Hnone : outbox w = outbox w ∧ slept w = slept w
                  ∧ ∃ cs, probes w = probes w ++ cs ∧ (length cs ≤ 1)%nat).
  { split; [reflexivity|]. split; [reflexivity|]. exists [].
    rewrite app_nil_r. simpl. split; [reflexivity|lia]. }
  unfold check_target_probe, getitem.
  destruct (contains "Ping" (type t)).
  { destruct (config t !! "host") as [host|]; [|exact Hnone].
    destruct (check_ping_world cfg host w) as (Ho & Hs & Hp).
    destruct (check_ping cfg host w) as [r w']. simpl in *.
    split; [exact Ho|]. split; [exact Hs|]. eexists. split; [exact Hp|]. simpl. lia. }
  destruct (contains "TCP" (type t)).
  { destruct (config t !! "host") as [host|]; [|exact Hnone].
    destruct (config t !! "port") as [port|]; [|exact Hnone].
    destruct (check_tcp_port_world cfg host port w) as (Ho & Hs & Hp).
    destruct (check_tcp_port cfg host port w) as [r w']. simpl in *.
    split; [exact Ho|]. split; [exact Hs|]. eexists. split; [exact Hp|]. simpl. lia. }
  destruct (contains "HTTP" (type t)).
  { destruct (config t !! "url") as [url|]; [|exact Hnone].
    destruct (check_http_world cfg url
                (default (PInt 200) (config t !! "expected_status")) w)
      as (Ho & Hs & Hp).
    destruct (check_http cfg url _ w) as [r w']. simpl in *.
    split; [exact Ho|]. split; [exact Hs|]. eexists. split; [exact Hp|]. simpl. lia. }
  destruct (contains "Docker" (type t)).
  { destruct (config t !! "container") as [container|]; [|exact Hnone].
    destruct (check_docker_world cfg container w) as (Ho & Hs & Hp).
    destruct (check_docker cfg container w) as [r w']. simpl in *.
    split; [exact Ho|]. split; [exact Hs|]. eexists. split; [exact Hp|]. simpl. lia. }
  destruct (contains "Systemd" (type t)).
  { destruct (config t !! "service") as [service|]; [|exact Hnone].
    destruct (check_systemd_world cfg service w) as (Ho & Hs & Hp).
    destruct (check_systemd cfg service w) as [r w']. simpl in *.
    split; [exact Ho|]. split; [exact Hs|]. eexists. split; [exact Hp|]. simpl. lia. }
  exact Hnone.
Qed.

Lemma update_slept cfg t r w :
  slept (check_target_update cfg t r w).2 = slept w.
Proof. step_cases cfg t r; reflexivity. Qed.

(** One call of [check_target]: at most one probe, no sleep, and no status
    report among the messages it sends. *)
Lemma check_target_world cfg t w :
  (length (probes (check_target cfg t w).2) ≤ length (probes w) + 1)%nat
  ∧ slept (check_target cfg t w).2 = slept w
  ∧ reports (outbox (check_target cfg t w).2) = reports (outbox w).
Proof.
  unfold check_target.
  destruct (check_target_probe_world cfg t w) as (Ho & Hs & cs & Hp & Hlen).
  destruct (check_target_probe cfg t w) as [[r|e] w1]; simpl in *.
  - pose proof (update_probes cfg t r w1) as Hp'.
    pose proof (update_slept cfg t r w1) as Hs'.
    destruct (update_outbox cfg t r w1) as (ms & Hms & Hcases).
    destruct (check_target_update cfg t r w1) as [t' w2]; simpl in *.
    rewrite Hp', Hp, length_app, Hs', Hs, Hms, Ho.
    split; [lia|]. split; [reflexivity|].
    unfold reports. rewrite omap_app.
    destruct Hcases as [[-> _]|[(a & -> & _)|(a & -> & _)]]; simpl;
      apply app_nil_r.
  - rewrite Hp, length_app, Hs, Ho. split; [lia|]. auto.
Qed.

Lemma run_checks_world cfg targets :
  ∀ w,
    Forall2 (λ t t', ∃ w1, t' = (check_target cfg t w1).1.2)
      targets (run_checks cfg targets w).1
    ∧ (length (probes (run_checks cfg targets w).2)
       ≤ length (probes w) + length targets)%nat
    ∧ slept (run_checks cfg targets w).2 = slept w
    ∧ reports (outbox (run_checks cfg targets w).2) = reports (outbox w).
Proof.
  induction targets as [|t ts IH]; intros w; simpl.
  - split; [constructor|]. split; [lia|]. auto.
  - destruct (check_target_world cfg t w) as (Hp & Hs & Hr).
    assert (Ht : ∃ w1, (check_target cfg t w).1.2 = (check_target cfg t w1).1.2)
      by (exists w; reflexivity).
    destruct (check_target cfg t w) as [[e t'] w']. simpl in *.
    destruct (IH w') as (Hall & Hp' & Hs' & Hr').
    destruct (run_checks cfg ts w') as [ts' w'']. simpl in *.
    split; [constructor; assumption|]. split; [lia|].
    split; congruence.
Qed.

Lemma send_status_report_world targets w :
  probes (send_status_report targets w) = probes w
  ∧ slept (send_status_report targets w) = slept w.
Proof. unfold send_status_report. simpl. auto. Qed.

(** A round adds alerts to the outbox, and nothing else. *)
Lemma check_target_outbox cfg t w :
  ∃ ms, outbox (check_target cfg t w).2 = outbox w ++ ms ∧ reports ms = [].
Proof.
  unfold check_target.
  destruct (check_target_probe_world cfg t w) as (Ho & _).
  destruct (check_target_probe cfg t w) as [[r|e] w1]; cbn [fst snd] in *.
  - destruct (update_outbox cfg t r w1) as (ms & Hms & Hcases).
    destruct (check_target_update cfg t r w1) as [t' w2]. cbn [fst snd] in *.
    exists ms. rewrite Hms, Ho. split; [reflexivity|].
    destruct Hcases as [[-> _]|[(a & -> & _)|(a & -> & _)]]; reflexivity.
  - exists []. rewrite app_nil_r. auto.
Qed.

Lemma round_outbox cfg ts :
  ∀ w, ∃ ms, outbox (run_checks cfg ts w).2 = outbox w ++ ms ∧ reports ms = [].
Proof.
  induction ts as [|t ts IH]; intros w; cbn [run_checks].
  - exists []. rewrite app_nil_r. auto.
  - destruct (check_target_outbox cfg t w) as (ms1 & Hms1 & Hr1).
    destruct (check_target cfg t w) as [[e t'] w1]. cbn [fst snd] in *.
    destruct (IH w1) as (ms2 & Hms2 & Hr2).
    destruct (run_checks cfg ts w1) as [ts' w2]. cbn [fst snd] in *.
    exists (ms1 ++ ms2). rewrite Hms2, Hms1, app_assoc. split; [reflexivity|].
    unfold reports in *. rewrite omap_app, Hr1, Hr2. reflexivity.
Qed.

(** [run_checks] is one round, and a round has one outcome. *)
Lemma run_checks_one_round cfg ts :
  ∀ w, one_round cfg ts w (run_checks cfg ts w).1 (run_checks cfg ts w).2.
Proof.
  induction ts as [|t ts IH]; intros w; cbn [run_checks].
  - constructor.
  - destruct (check_target cfg t w) as [[e t'] w1] eqn:Hc.
    specialize (IH w1). destruct (run_checks cfg ts w1) as [ts' w2].
    cbn [fst snd] in *. econstructor; eassumption.
Qed.

Lemma one_round_functional cfg ts w ts1 w1 ts2 w2 :
  one_round cfg ts w ts1 w1 → one_round cfg ts w ts2 w2 →
  ts1 = ts2 ∧ w1 = w2.
Proof.
  intros H1. revert ts2 w2.
  induction H1 as [w|t ts w e t' wa ts' wb Hc _ IH]; intros ts2 w2 H2.
  - inversion H2. auto.
  - inversion H2 as [|? ? ? e2 t2 wa2 ts2' wb2 Hc2 Hr2]; subst.
    rewrite Hc in Hc2. injection Hc2 as <- <- <-.
    destruct (IH _ _ Hr2) as [-> ->]. auto.
Qed.

(** C6: in run-once mode [start] makes exactly one round of checks over all
    targets: every target is passed once to [check_target], in turn, and
    the probes, alerts and clock readings of the round stay on record.  It
    then sends one status report, on the targets as the round has left
    them, if one of them is Down, and leaves the world of the round as it
    is otherwise; it never sleeps, and the bound on the rounds of the loop
    plays no part: it does not loop. *)
Theorem C6_run_once cfg rounds targets w :
  RUN_ONCE cfg = true →
  let targets' := (start cfg rounds targets w).1 in
  let w' := (start cfg rounds targets w).2 in
  (∃ w1, one_round cfg targets w targets' w1
         ∧ w' = (if bool_decide (Exists (λ t, status t = DOWN) targets')
                 then send_status_report targets' w1 else w1)
         ∧ probes w' = probes w1
         ∧ ∃ alerts, outbox w1 = outbox w ++ alerts
             ∧ reports alerts = []
             ∧ outbox w'
               = outbox w ++ alerts
                 ++ (if bool_decide (Exists (λ t, status t = DOWN) targets')
                     then [ReportMsg
                             {| report_now := clock w1 (ticks w1);
                                report_up_count :=
                                  Z.of_nat (length (filter (λ t, status t = UP)
                                                      targets'));
                                report_down_count :=
                                  Z.of_nat (length (filter (λ t, status t = DOWN)
                                                      targets'));
                                report_lines :=
                                  report_line <$> sorted key_lt sort_key targets' |}]
                     else []))
  ∧ targets' = (run_checks cfg targets w).1
  ∧ Forall2 (λ t t', ∃ w1, t' = (check_target cfg t w1).1.2) targets targets'
  ∧ (length (probes w') ≤ length (probes w) + length targets)%nat
  ∧ length (reports (outbox w'))
    = (length (reports (outbox w))
       + (if bool_decide (Exists (λ t, status t = DOWN) targets') then 1 else 0))%nat
  ∧ slept w' = slept w
  ∧ start cfg rounds targets w = start cfg 0 targets w.
Proof.
  intros Honce. unfold start. rewrite Honce.
  destruct (run_checks_world cfg targets w) as (Hall & Hp & Hs & Hr).
  pose proof (run_checks_one_round cfg targets w) as Hround.
  pose proof (round_outbox cfg targets w) as (alerts & Hout & Hal).
  destruct (run_checks cfg targets w) as [ts' w1]. cbn [fst snd] in *.
  destruct (filter (λ t, status t = DOWN) ts') as [|d ds] eqn:Hdown;
    cbn [fst snd].
  - assert (Hno : ¬ Exists (λ t, status t = DOWN) ts').
    { intros Hex. apply Exists_exists in Hex as (t & Hin & Ht).
      assert (Hin' : t ∈ filter (λ t, status t = DOWN) ts')
        by (apply list_elem_of_filter; auto).
      rewrite Hdown in Hin'. inversion Hin'. }
    rewrite !(bool_decide_eq_false_2 _ Hno). split.
    { exists w1. split; [exact Hround|]. split; [reflexivity|].
      split; [reflexivity|]. exists alerts. rewrite app_nil_r. auto. }
    split; [reflexivity|]. split; [exact Hall|]. split; [exact Hp|].
    split; [|auto]. rewrite Hr. lia.
  - assert (Hyes : Exists (λ t, status t = DOWN) ts').
    { apply Exists_exists. exists d.
      assert (Hin : d ∈ filter (λ t, status t = DOWN) ts')
        by (rewrite Hdown; left).
      apply list_elem_of_filter in Hin as [Hd Hin]. auto. }
    rewrite !(bool_decide_eq_true_2 _ Hyes).
    destruct (send_status_report_world ts' w1) as [Hp1 Hs1].
    split.
    { exists w1. split; [exact Hround|]. split; [reflexivity|].
      split; [exact Hp1|]. exists alerts. split; [exact Hout|].
      split; [exact Hal|].
      rewrite send_status_report_outbox, Hout, <- app_assoc. reflexivity. }
    split; [reflexivity|]. split; [exact Hall|].
    rewrite send_status_report_outbox, Hp1, Hs1.
    split; [exact Hp|]. split; [|auto].
    unfold reports in *. rewrite omap_app, length_app, Hr. reflexivity.
Qed.

Lemma C6_witness :
  let cfg := CONFIG {| env_CHECK_INTERVAL := None; env_RETRY_INTERVAL := None;
                       env_TIMEOUT := None; env_RUN_ONCE := Some true |} in
  let w := world_at 0 1000 (net_without "54.36.114.17") in
  let targets := [server "BTCPayServer PROD" "51.75.90.145" UP 0;
                  server "Bitmoon API PROD" "54.36.114.17" UP 1] in
  RUN_ONCE cfg = true
  ∧ status <$> (start cfg 5 targets w).1 = [UP; DOWN]
  ∧ length (reports (outbox (start cfg 5 targets w).2)) = 1%nat
  ∧ slept (start cfg 5 targets w).2 = []
  ∧ probes (start cfg 5 targets w).2
    = [Ping (PStr "51.75.90.145") 10; Ping (PStr "54.36.114.17") 10]
  ∧ alert_flags (outbox (start cfg 5 targets w).2) = [true]
  ∧ ∃ w1, one_round cfg targets w (start cfg 5 targets w).1 w1
          ∧ (start cfg 5 targets w).2
            = send_status_report (start cfg 5 targets w).1 w1.
Proof.
  intros cfg w targets.
  assert (Honce : RUN_ONCE cfg = true) by reflexivity.
  destruct (C6_run_once cfg 5 targets w Honce)
    as ((w1 & Hround & Hw & _) & _ & _ & _ & Hn & Hs & _).
  split; [exact Honce|]. split; [vm_compute; reflexivity|].
  split; [rewrite Hn; vm_compute; reflexivity|].
  split; [exact Hs|]. split; [vm_compute; reflexivity|].
  split; [vm_compute; reflexivity|].
  exists w1. split; [exact Hround|]. rewrite Hw.
  rewrite bool_decide_eq_true_2; [reflexivity|].
  assert (Hst : DOWN ∈ status <$> (start cfg 5 targets w).1).
  { replace (status <$> (start cfg 5 targets w).1) with [UP; DOWN]
      by (vm_compute; reflexivity).
    apply list_elem_of_here || (right; left). }
  apply list_elem_of_fmap in Hst as (t & Ht & Hin).
  apply Exists_exists. exists t. auto.
Defined.

(** The other scenario of the specification: nothing Down, no report. *)
Example run_once_all_up :
  let cfg := CONFIG {| env_CHECK_INTERVAL := None; env_RETRY_INTERVAL := None;
                       env_TIMEOUT := None; env_RUN_ONCE := Some true |} in
  let w := world_at 0 1000 healthy_net in
  let targets := [server "BTCPayServer PROD" "51.75.90.145" UP 0;
                  server "Bitmoon API PROD" "54.36.114.17" UNKNOWN 0] in
  status <$> (start cfg 5 targets w).1 = [UP; UP]
  ∧ outbox (start cfg 5 targets w).2 = [].
Proof. vm_compute. auto. Qed.

(** * Further properties of the monitor *)

(** ** The text of an alert *)


(** X2: [send_alert] sends one message.  A Down alert never shows a response
    time or a downtime, and shows the error line exactly when the target has
    an error text; a Recovered alert never shows an error line, shows the
    downtime exactly when the target has a stamp, and the response time
    exactly when it is positive. *)
Theorem send_alert_lines target is_down w :
  ∃ a, outbox (send_alert target is_down w) = outbox w ++ [AlertMsg a]
    ∧ alert_is_down a = is_down
    ∧ alert_name a = name target ∧ alert_type a = type target
    ∧ (is_down = true →
       alert_response a = None ∧ alert_downtime a = None
       ∧ (alert_error a = None ↔ error_message target = "")
       ∧ (alert_error a ≠ None → alert_error a = Some (error_message target)))
    ∧ (is_down = false →
       alert_error a = None
       ∧ (alert_downtime a = None ↔ last_status_change target = None)
       ∧ (alert_response a = None ↔ response_time target ≤ 0)).
Proof.
  unfold send_alert. cbn [now fst snd clock ticks].
  destruct is_down; destruct (last_status_change target) as [since|]; simpl;
    (eexists; split; [reflexivity|]); simpl;
    rewrite ?andb_true_r, ?andb_false_r;
    (split; [reflexivity|]); (split; [reflexivity|]);
    (split; [reflexivity|]); split; intros Hflag; try discriminate Hflag.
  - destruct (error_message target); simpl; repeat split; auto; congruence.
  - destruct (error_message target); simpl; repeat split; auto; congruence.
  - destruct (0 <? response_time target) eqn:Hrt;
      [apply Z.ltb_lt in Hrt|apply Z.ltb_ge in Hrt];
      repeat split; auto; try congruence; lia.
  - destruct (0 <? response_time target) eqn:Hrt;
      [apply Z.ltb_lt in Hrt|apply Z.ltb_ge in Hrt];
      repeat split; auto; try congruence; lia.
Qed.

(** ** The status as a function of the probe results *)

Lemma feed_down_floor cfg n ty cf rs w :
  status (feed cfg (new_Target n ty cf) rs w).1 = DOWN →
  Z.max 1 (CONSECUTIVE_FAILURES cfg)
  ≤ consecutive_failures (feed cfg (new_Target n ty cf) rs w).1.
Proof.
  induction rs as [|r rs IH] using rev_ind.
  - simpl. discriminate.
  - rewrite feed_snoc.
    destruct (feed_counter cfg n ty cf rs w) as [Hc _].
    pose proof (leading_failures_nonneg (reverse rs)) as Hnn.
    fold (trailing_failures rs) in Hnn.
    set (t := (feed cfg (new_Target n ty cf) rs w).1) in *.
    set (w1 := (feed cfg (new_Target n ty cf) rs w).2).
    destruct r as [[ok rt] msg]. destruct ok.
    + destruct (update_success cfg t rt msg w1) as (Hs & _). congruence.
    + destruct (update_failure cfg t rt msg w1) as (Hk & Hs & _).
      rewrite Hk, Hs.
      destruct (CONSECUTIVE_FAILURES cfg <=? consecutive_failures t + 1) eqn:Hthr.
      * apply Z.leb_le in Hthr. lia.
      * intros Hd. specialize (IH Hd). lia.
Qed.

(** X3: fed with any probe results from its fresh state, a target is Down
    exactly when the results end with at least max(1, threshold) failures
    in a row. *)
Theorem fresh_down_iff_trailing cfg n ty cf rs w :
  status (feed cfg (new_Target n ty cf) rs w).1 = DOWN
  ↔ Z.max 1 (CONSECUTIVE_FAILURES cfg) ≤ trailing_failures rs.
Proof.
  destruct (feed_counter cfg n ty cf rs w) as [Hc Hlt]. split.
  - intros Hd. rewrite <- Hc. apply feed_down_floor, Hd.
  - intros Hge.
    destruct (decide (status (feed cfg (new_Target n ty cf) rs w).1 = DOWN))
      as [Hd|Hnd]; [exact Hd|].
    specialize (Hlt Hnd). lia.
Qed.

Lemma any_success_snoc rs r : any_success (rs ++ [r]) = any_success rs || r.1.1.
Proof. unfold any_success. rewrite existsb_app. simpl. rewrite orb_false_r. reflexivity. Qed.

(** X4: fed with any probe results from its fresh state, a target is still
    Unknown exactly when no probe has succeeded and the failures in a row
    have not reached max(1, threshold): one success ends the Unknown state
    for good. *)
Theorem fresh_unknown_iff cfg n ty cf rs w :
  status (feed cfg (new_Target n ty cf) rs w).1 = UNKNOWN
  ↔ any_success rs = false
    ∧ trailing_failures rs < Z.max 1 (CONSECUTIVE_FAILURES cfg).
Proof.
  assert (Hmain : status (feed cfg (new_Target n ty cf) rs w).1 = UNKNOWN
                  ↔ any_success rs = false
                    ∧ status (feed cfg (new_Target n ty cf) rs w).1 ≠ DOWN).
  { induction rs as [|r rs IH] using rev_ind.
    - simpl. split; [intros _; split; [reflexivity|discriminate]|auto].
    - rewrite feed_snoc, any_success_snoc.
      set (t := (feed cfg (new_Target n ty cf) rs w).1) in *.
      set (w1 := (feed cfg (new_Target n ty cf) rs w).2).
      destruct r as [[ok rt] msg]. destruct ok; cbn [fst snd].
      + destruct (update_success cfg t rt msg w1) as (Hs & _).
        rewrite Hs, orb_true_r. split; [discriminate|intros [? _]; discriminate].
      + destruct (update_failure cfg t rt msg w1) as (_ & Hs & _).
        rewrite Hs, orb_false_r.
        destruct (CONSECUTIVE_FAILURES cfg <=? consecutive_failures t + 1).
        * split; [discriminate|intros [_ Hnd]; contradiction].
        * exact IH. }
  rewrite Hmain.
  destruct (feed_counter cfg n ty cf rs w) as [Hc Hlt].
  split; intros [Hno Hs]; (split; [exact Hno|]).
  - rewrite <- Hc. apply Hlt, Hs.
  - intros Hd. apply feed_down_floor in Hd. lia.
Qed.

(** A step keeps the agreement of stamp and status. *)
Lemma update_stamp_invariant cfg t r w :
  stamp_invariant t → stamp_invariant (check_target_update cfg t r w).1.
Proof.
  unfold stamp_invariant. intros [Hu Hd].
  step_cases cfg t r; (split; [|intros Hx]); try congruence; eauto.
Qed.

(** X5: from its fresh state on, whatever the probe results, a target that
    is Down has a time of its last change of status, and a target that is
    still Unknown has none. *)
Theorem fresh_stamp_agrees cfg n ty cf rs w :
  (status (feed cfg (new_Target n ty cf) rs w).1 = UNKNOWN →
   last_status_change (feed cfg (new_Target n ty cf) rs w).1 = None)
  ∧ (status (feed cfg (new_Target n ty cf) rs w).1 = DOWN →
     is_Some (last_status_change (feed cfg (new_Target n ty cf) rs w).1)).
Proof.
  change (stamp_invariant (feed cfg (new_Target n ty cf) rs w).1).
  induction rs as [|r rs IH] using rev_ind.
  - simpl. split; [reflexivity|discriminate].
  - rewrite feed_snoc. apply update_stamp_invariant, IH.
Qed.

(** ** Runs that send nothing *)

Lemma feed_cons cfg t r rs w :
  feed cfg t (r :: rs) w =
  feed cfg (check_target_update cfg t r w).1 rs (check_target_update cfg t r w).2.
Proof. simpl. destruct (check_target_update cfg t r w). reflexivity. Qed.

Lemma update_success_quiet cfg t rt msg w :
  status t ≠ DOWN →
  outbox (check_target_update cfg t (true, rt, msg) w).2 = outbox w.
Proof.
  intros Hnd. unfold check_target_update. simpl.
  rewrite bool_decide_eq_false_2 by exact Hnd. reflexivity.
Qed.

(** X6: successful probes fed to a target that is not Down send no
    notification, however many they are, and leave the target Up with its
    counter at zero. *)
Theorem successes_send_nothing cfg t rs w :
  status t ≠ DOWN →
  Forall (λ r, r.1.1 = true) rs →
  emitted cfg t rs w = []
  ∧ (rs ≠ [] → status (feed cfg t rs w).1 = UP
               ∧ consecutive_failures (feed cfg t rs w).1 = 0).
Proof.
  intros Hnd Hall. revert t w Hnd.
  induction Hall as [|r rs Hr Hall IH]; intros t w Hnd.
  - rewrite emitted_nil. split; [reflexivity|congruence].
  - destruct r as [[ok rt] msg]. simpl in Hr. subst ok.
    destruct (update_success cfg t rt msg w) as (Hs & Hc & _).
    pose proof (update_success_quiet cfg t rt msg w Hnd) as Hq.
    assert (Hnd' : status (check_target_update cfg t (true, rt, msg) w).1 ≠ DOWN)
      by (rewrite Hs; discriminate).
    destruct (IH _ (check_target_update cfg t (true, rt, msg) w).2 Hnd')
      as [IHe IHs].
    rewrite emitted_cons, IHe, app_nil_r. split.
    + apply emitted_one. rewrite Hq, app_nil_r. reflexivity.
    + intros _. rewrite feed_cons.
      destruct rs as [|r' rs']; [simpl; auto|]. apply IHs. discriminate.
Qed.

Lemma successes_send_nothing_witness :
  let cfg := CONFIG empty_env in
  let w := world_at 0 1000000 healthy_net in
  let t := target_in "CRATOS" "Server (Ping)" UP (Some 5) 1 in
  let rs := [probe_ok; probe_ok; probe_ok] in
  status t ≠ DOWN
  ∧ outbox (feed cfg t rs w).2 = []
  ∧ status (feed cfg t rs w).1 = UP.
Proof.
  intros cfg w t rs.
  assert (Hnd : status t ≠ DOWN) by (vm_compute; discriminate).
  assert (Hall : Forall (λ r : ProbeResult, r.1.1 = true) rs)
    by (repeat constructor).
  destruct (successes_send_nothing cfg t rs w Hnd Hall) as [_ Hup].
  split; [exact Hnd|]. split; [vm_compute; reflexivity|].
  apply Hup. discriminate.
Defined.

(** X7: failed probes fed to a target that is already Down send no further
    alert and leave it Down. *)
Theorem failures_while_down_send_nothing cfg t rs w :
  status t = DOWN →
  Forall (λ r, r.1.1 = false) rs →
  emitted cfg t rs w = [] ∧ status (feed cfg t rs w).1 = DOWN.
Proof.
  intros Hd Hall. revert t w Hd.
  induction Hall as [|r rs Hr Hall IH]; intros t w Hd.
  - rewrite emitted_nil. simpl. auto.
  - destruct r as [[ok rt] msg]. simpl in Hr. subst ok.
    destruct (update_failure cfg t rt msg w) as (_ & Hs & _).
    destruct (update_failure_outbox cfg t rt msg w) as [_ Hq].
    specialize (Hq (or_intror Hd)).
    assert (Hd' : status (check_target_update cfg t (false, rt, msg) w).1 = DOWN).
    { rewrite Hs. destruct (_ <=? _); [reflexivity|exact Hd]. }
    destruct (IH _ (check_target_update cfg t (false, rt, msg) w).2 Hd')
      as [IHe IHs].
    rewrite emitted_cons, IHe, app_nil_r. split.
    + apply emitted_one. rewrite Hq, app_nil_r. reflexivity.
    + rewrite feed_cons. exact IHs.
Qed.

Lemma failures_while_down_send_nothing_witness :
  let cfg := CONFIG empty_env in
  let w := world_at 0 1000000 healthy_net in
  let t := target_in "ARES SSH" "TCP:22" DOWN (Some 5) 2 in
  let rs := [probe_fail; probe_fail; probe_fail; probe_fail] in
  status t = DOWN
  ∧ emitted cfg t rs w = []
  ∧ consecutive_failures (feed cfg t rs w).1 = 6.
Proof.
  intros cfg w t rs.
  assert (Hd : status t = DOWN) by reflexivity.
  assert (Hall : Forall (λ r : ProbeResult, r.1.1 = false) rs)
    by (repeat constructor).
  destruct (failures_while_down_send_nothing cfg t rs w Hd Hall) as [He _].
  split; [exact Hd|]. split; [exact He|]. vm_compute. reflexivity.
Defined.

(** X8: with the recovery alert switched off every notification of a run
    is a Down alert; recoveries still turn the target Up, in silence. *)
Theorem no_recovery_alert_when_off cfg t rs w :
  ALERT_ON_RECOVERY cfg = false →
  Forall (λ b, b = true) (alert_flags (emitted cfg t rs w)).
Proof.
  intros Hoff. revert t w. induction rs as [|r rs IH]; intros t w.
  - rewrite emitted_nil. constructor.
  - rewrite emitted_cons. unfold alert_flags. rewrite omap_app.
    apply Forall_app. split; [|apply IH].
    destruct (update_outbox cfg t r w) as (ms & Hms & Hcases).
    rewrite (emitted_one cfg t r w ms Hms).
    destruct Hcases as [[-> _]|[(a & -> & Ha & _)|(a & -> & Ha & Hd & _ & Hok)]].
    + constructor.
    + simpl. rewrite Ha. repeat constructor.
    + exfalso. destruct r as [[ok rt] msg]. simpl in Hok. subst ok.
      unfold check_target_update in Hms. simpl in Hms.
      rewrite bool_decide_eq_true_2 in Hms by exact Hd.
      rewrite Hoff in Hms. simpl in Hms.
      apply (f_equal length) in Hms. rewrite length_app in Hms. simpl in Hms. lia.
Qed.

Lemma no_recovery_alert_when_off_witness :
  let cfg := {| CHECK_INTERVAL := 30; RETRY_INTERVAL := 10; TIMEOUT := 10;
                ALERT_ON_RECOVERY := false; CONSECUTIVE_FAILURES := 2;
                RUN_ONCE := false |} in
  let w := world_at 0 1000000 healthy_net in
  let t := new_Target "BPay" "HTTP/HTTPS" ∅ in
  let rs := [probe_fail; probe_fail; probe_ok; probe_fail; probe_fail] in
  ALERT_ON_RECOVERY cfg = false
  ∧ alert_flags (emitted cfg t rs w) = [true; true]
  ∧ Forall (λ b, b = true) (alert_flags (emitted cfg t rs w)).
Proof.
  intros cfg w t rs.
  assert (Hoff : ALERT_ON_RECOVERY cfg = false) by reflexivity.
  split; [exact Hoff|]. split; [vm_compute; reflexivity|].
  exact (no_recovery_alert_when_off cfg t rs w Hoff).
Defined.

(** X9: the step that takes a target Down sends one Down alert, and the
    error line of that alert is the error detail of the probe of this very
    step (no line when that detail is empty), whatever the earlier failures
    reported. *)
Theorem down_alert_carries_last_error cfg t rt msg w :
  status t ≠ DOWN →
  CONSECUTIVE_FAILURES cfg ≤ consecutive_failures t + 1 →
  ∃ a, emitted cfg t [(false, rt, msg)] w = [AlertMsg a]
    ∧ alert_is_down a = true
    ∧ alert_name a = name t
    ∧ alert_error a = (if truthy msg then Some msg else None)
    ∧ alert_response a = None ∧ alert_downtime a = None.
Proof.
  intros Hnd Hthr.
  assert (Hstep : ∃ a, outbox (check_target_update cfg t (false, rt, msg) w).2
                       = outbox w ++ [AlertMsg a]
                    ∧ alert_is_down a = true ∧ alert_name a = name t
                    ∧ alert_error a = (if truthy msg then Some msg else None)
                    ∧ alert_response a = None ∧ alert_downtime a = None).
  { unfold check_target_update. simpl.
    rewrite (proj2 (Z.leb_le _ _) Hthr).
    rewrite bool_decide_eq_true_2 by exact Hnd. simpl.
    eexists. split; [reflexivity|]. simpl. rewrite andb_true_r, andb_false_r.
    auto 10. }
  destruct Hstep as (a & Ha & Hrest). exists a.
  split; [apply emitted_one, Ha|exact Hrest].
Qed.

Lemma down_alert_carries_last_error_witness :
  let cfg := CONFIG empty_env in
  let w := world_at 0 1000000 healthy_net in
  let t := (feed cfg (new_Target "BPay" "HTTP/HTTPS" ∅)
              [(false, 0, "HTTP timeout")] w).1 in
  status t ≠ DOWN
  ∧ CONSECUTIVE_FAILURES cfg ≤ consecutive_failures t + 1
  ∧ ∃ a, emitted cfg t [(false, 85000, "HTTP 503")] w = [AlertMsg a]
      ∧ alert_error a = Some "HTTP 503".
Proof.
  intros cfg w t.
  assert (Hnd : status t ≠ DOWN) by (vm_compute; discriminate).
  assert (Hthr : CONSECUTIVE_FAILURES cfg ≤ consecutive_failures t + 1)
    by (vm_compute; discriminate).
  destruct (down_alert_carries_last_error cfg t 85000 "HTTP 503" w Hnd Hthr)
    as (a & Ha & _ & _ & He & _).
  split; [exact Hnd|]. split; [exact Hthr|]. exists a. auto.
Defined.

(** ** Missing configuration keys *)

(** A check that raises in one world raises in every world, a [KeyError],
    and changes nothing. *)
Lemma check_target_raise_stable cfg t w0 e :
  (check_target cfg t w0).1.1 = Some e →
  exn_name e = "KeyError" ∧ ∀ w, check_target cfg t w = (Some e, t, w).
Proof.
  unfold check_target, check_target_probe, getitem. intros H.
  repeat match goal with
         | _ : context [contains ?a ?b] |- _ => destruct (contains a b)
         | _ : context [config t !! ?k] |- _ => destruct (config t !! k)
         end;
    repeat match goal with
           | _ : context [check_ping ?a ?b ?c] |- _ => destruct (check_ping a b c)
           | _ : context [check_tcp_port ?a ?b ?c ?d] |- _ =>
               destruct (check_tcp_port a b c d)
           | _ : context [check_http ?a ?b ?c ?d] |- _ =>
               destruct (check_http a b c d)
           | _ : context [check_docker ?a ?b ?c] |- _ => destruct (check_docker a b c)
           | _ : context [check_systemd ?a ?b ?c] |- _ =>
               destruct (check_systemd a b c)
           | _ : context [check_target_update ?a ?b ?c ?d] |- _ =>
               destruct (check_target_update a b c d)
           end;
    simpl in H; try discriminate H;
    injection H as <-; auto.
Qed.

(** X10: the only exception [check_target] ends with is the [KeyError] of a
    configuration key its probe needs; it is raised before anything is
    done (the target and the world are left as they were), and it does not
    depend on the world: the same target raises it at every check. *)
Theorem check_target_raises_only_KeyError cfg t w e :
  (check_target cfg t w).1.1 = Some e →
  check_target cfg t w = (Some e, t, w)
  ∧ exn_name e = "KeyError"
  ∧ ∀ w', check_target cfg t w' = (Some e, t, w').
Proof.
  intros H. destruct (check_target_raise_stable cfg t w e H) as [Hname Hall].
  split; [apply Hall|]. split; [exact Hname|exact Hall].
Qed.

Lemma check_target_raises_only_KeyError_witness :
  let cfg := CONFIG empty_env in
  let w := world_at 0 1000000 healthy_net in
  let t := new_Target "ARES SSH" "TCP:22" {[ "host" := PStr "188.12.149.216" ]} in
  (check_target cfg t w).1.1 = Some (KeyError "port")
  ∧ check_target cfg t w = (Some (KeyError "port"), t, w).
Proof.
  intros cfg w t.
  assert (H : (check_target cfg t w).1.1 = Some (KeyError "port"))
    by (vm_compute; reflexivity).
  split; [exact H|].
  exact (proj1 (check_target_raises_only_KeyError cfg t w _ H)).
Defined.

Lemma run_checks_app cfg ts1 ts2 w :
  run_checks cfg (ts1 ++ ts2) w =
  ((run_checks cfg ts1 w).1
     ++ (run_checks cfg ts2 (run_checks cfg ts1 w).2).1,
   (run_checks cfg ts2 (run_checks cfg ts1 w).2).2).
Proof.
  revert w. induction ts1 as [|t ts1 IH]; intros w; simpl.
  - destruct (run_checks cfg ts2 w). reflexivity.
  - destruct (check_target cfg t w) as [[e t'] w']. rewrite IH.
    destruct (run_checks cfg ts1 w') as [ts1' w'']. simpl.
    destruct (run_checks cfg ts2 w''). reflexivity.
Qed.

(** X11: a target whose check raises does not disturb the round: the other
    targets are checked as if it were not in the list, in the same world,
    and it keeps its place unchanged. *)
Theorem run_checks_isolates_raise cfg ts1 t ts2 w w0 e :
  (check_target cfg t w0).1.1 = Some e →
  (run_checks cfg (ts1 ++ t :: ts2) w).2 = (run_checks cfg (ts1 ++ ts2) w).2
  ∧ (run_checks cfg (ts1 ++ t :: ts2) w).1
    = (run_checks cfg ts1 w).1
        ++ t :: (run_checks cfg ts2 (run_checks cfg ts1 w).2).1
  ∧ (run_checks cfg (ts1 ++ ts2) w).1
    = (run_checks cfg ts1 w).1
        ++ (run_checks cfg ts2 (run_checks cfg ts1 w).2).1.
Proof.
  intros H.
  destruct (check_target_raise_stable cfg t w0 e H) as [_ Hraise].
  rewrite !run_checks_app. cbn [run_checks fst snd].
  rewrite Hraise.
  destruct (run_checks cfg ts2 (run_checks cfg ts1 w).2) as [ts2' w2].
  cbn [fst snd]. auto.
Qed.

Lemma run_checks_isolates_raise_witness :
  let cfg := CONFIG empty_env in
  let w := world_at 0 1000 (net_without "54.36.114.17") in
  let broken := new_Target "no host" "Server (Ping)" ∅ in
  let ts1 := [server "BTCPayServer PROD" "51.75.90.145" UNKNOWN 0] in
  let ts2 := [server "Bitmoon API PROD" "54.36.114.17" UP 1] in
  (check_target cfg broken w).1.1 = Some (KeyError "host")
  ∧ status <$> (run_checks cfg (ts1 ++ broken :: ts2) w).1 = [UP; UNKNOWN; DOWN]
  ∧ (run_checks cfg (ts1 ++ broken :: ts2) w).2
    = (run_checks cfg (ts1 ++ ts2) w).2.
Proof.
  intros cfg w broken ts1 ts2.
  assert (H : (check_target cfg broken w).1.1 = Some (KeyError "host"))
    by (vm_compute; reflexivity).
  split; [exact H|]. split; [vm_compute; reflexivity|].
  exact (proj1 (run_checks_isolates_raise cfg ts1 broken ts2 w w _ H)).
Defined.

(** ** What the scheduler keeps *)

Lemma update_identity cfg t r w :
  identity (check_target_update cfg t r w).1 = identity t.
Proof. step_cases cfg t r; reflexivity. Qed.

Lemma check_target_identity cfg t w :
  identity (check_target cfg t w).1.2 = identity t.
Proof.
  unfold check_target.
  destruct (check_target_probe cfg t w) as [[r|e] w']; [|reflexivity].
  pose proof (update_identity cfg t r w') as H.
  destruct (check_target_update cfg t r w'). exact H.
Qed.

Lemma run_checks_identity cfg ts :
  ∀ w, identity <$> (run_checks cfg ts w).1 = identity <$> ts.
Proof.
  induction ts as [|t ts IH]; intros w; [reflexivity|].
  cbn [run_checks].
  pose proof (check_target_identity cfg t w) as Ht.
  destruct (check_target cfg t w) as [[e t'] w']. cbn [fst snd] in Ht.
  specialize (IH w'). destruct (run_checks cfg ts w') as [ts' w''].
  cbn [fst snd] in *. rewrite !fmap_cons, Ht, IH. reflexivity.
Qed.

Lemma monitor_loop_identity cfg rounds :
  ∀ ts w, identity <$> (monitor_loop cfg rounds ts w).1 = identity <$> ts.
Proof.
  induction rounds as [|n IH]; intros ts w; [reflexivity|].
  cbn [monitor_loop].
  pose proof (run_checks_identity cfg ts w) as Hr.
  destruct (run_checks cfg ts w) as [ts' w']. cbn [fst snd] in Hr.
  rewrite IH. exact Hr.
Qed.

(** X12: in either mode and after any number of rounds the monitor holds
    the same targets in the same order: no check adds, drops or reorders a
    target or assigns its name, its type or its configuration. *)
Theorem start_keeps_identities cfg rounds ts w :
  identity <$> (start cfg rounds ts w).1 = identity <$> ts
  ∧ length (start cfg rounds ts w).1 = length ts.
Proof.
  assert (H : identity <$> (start cfg rounds ts w).1 = identity <$> ts).
  { unfold start. destruct (RUN_ONCE cfg).
    - pose proof (run_checks_identity cfg ts w) as Hr.
      destruct (run_checks cfg ts w) as [ts' w']. cbn [fst snd] in Hr.
      destruct (filter _ ts'); exact Hr.
    - apply monitor_loop_identity. }
  split; [exact H|].
  apply (f_equal length) in H. rewrite !length_fmap in H. exact H.
Qed.

Lemma run_checks_down_invariant cfg ts :
  ∀ w, Forall (down_invariant cfg) ts →
       Forall (down_invariant cfg) (run_checks cfg ts w).1.
Proof.
  induction ts as [|t ts IH]; intros w Hall; simpl; [constructor|].
  apply Forall_cons in Hall as [Ht Hts].
  pose proof (check_target_down_invariant cfg t w Ht) as Ht'.
  destruct (check_target cfg t w) as [[e t'] w']. simpl in Ht'.
  specialize (IH w' Hts). destruct (run_checks cfg ts w') as [ts' w''].
  constructor; assumption.
Qed.

Lemma monitor_loop_down_invariant cfg rounds :
  ∀ ts w, Forall (down_invariant cfg) ts →
          Forall (down_invariant cfg) (monitor_loop cfg rounds ts w).1.
Proof.
  induction rounds as [|n IH]; intros ts w Hall; simpl; [exact Hall|].
  pose proof (run_checks_down_invariant cfg ts w Hall) as Hr.
  destruct (run_checks cfg ts w) as [ts' w']. apply IH, Hr.
Qed.

Lemma init_targets_fresh e :
  Forall (λ t, status t = UNKNOWN ∧ consecutive_failures t = 0
               ∧ last_check t = None ∧ last_status_change t = None
               ∧ error_message t = "" ∧ response_time t = 0)
    (_init_targets e).
Proof.
  unfold _init_targets. rewrite !Forall_app, !Forall_fmap.
  repeat split; apply Forall_true; intros x; simpl; auto 10.
Qed.

(** X13: a monitor started on the targets of [_init_targets], in either
    mode, in any world and for any number of rounds, holds only targets
    that are Down with at least the threshold of failures on their
    counter. *)
Theorem registry_down_invariant cfg e rounds w :
  Forall (down_invariant cfg) (start cfg rounds (_init_targets e) w).1.
Proof.
  assert (Hinit : Forall (down_invariant cfg) (_init_targets e)).
  { eapply Forall_impl; [apply init_targets_fresh|].
    intros t (Hs & _). unfold down_invariant. congruence. }
  unfold start. destruct (RUN_ONCE cfg).
  - pose proof (run_checks_down_invariant cfg _ w Hinit) as Hr.
    destruct (run_checks cfg (_init_targets e) w) as [ts' w'].
    destruct (filter _ ts'); exact Hr.
  - apply monitor_loop_down_invariant, Hinit.
Qed.

(** ** The continuous mode *)

Lemma monitor_loop_world cfg rounds :
  ∀ ts w,
    slept (monitor_loop cfg rounds ts w).2
    = slept w ++ replicate rounds (CHECK_INTERVAL cfg)
    ∧ reports (outbox (monitor_loop cfg rounds ts w).2) = reports (outbox w)
    ∧ (length (probes (monitor_loop cfg rounds ts w).2)
       ≤ length (probes w) + rounds * length ts)%nat.
Proof.
  induction rounds as [|n IH]; intros ts w.
  - simpl. rewrite app_nil_r. split; [reflexivity|]. split; [reflexivity|lia].
  - cbn [monitor_loop replicate].
    destruct (run_checks_world cfg ts w) as (_ & Hp & Hs & Hr).
    pose proof (run_checks_identity cfg ts w) as Hid.
    apply (f_equal length) in Hid. rewrite !length_fmap in Hid.
    destruct (run_checks cfg ts w) as [ts' w']. cbn [fst snd] in *.
    destruct (IH ts' (sleep (CHECK_INTERVAL cfg) w')) as (IHs & IHr & IHp).
    rewrite IHs, IHr. rewrite Hid in IHp. cbn [sleep slept outbox probes] in *.
    rewrite Hs, Hr, <- app_assoc. split; [reflexivity|].
    split; [reflexivity|]. lia.
Qed.

(** X14: in continuous mode [start] first announces itself with the number
    of targets and the interval, then after every round sleeps the check
    interval; it never sends a status report of its own, and issues at most
    one probe per target and round. *)
Theorem continuous_mode cfg rounds ts w :
  RUN_ONCE cfg = false →
  (∃ ms, outbox (start cfg rounds ts w).2
         = outbox w ++ StartMsg (Z.of_nat (length ts)) (CHECK_INTERVAL cfg) :: ms)
  ∧ reports (outbox (start cfg rounds ts w).2) = reports (outbox w)
  ∧ slept (start cfg rounds ts w).2
    = slept w ++ replicate rounds (CHECK_INTERVAL cfg)
  ∧ (length (probes (start cfg rounds ts w).2)
     ≤ length (probes w) + rounds * length ts)%nat.
Proof.
  intros Hloop. unfold start. rewrite Hloop.
  set (w0 := send_message (StartMsg (Z.of_nat (length ts)) (CHECK_INTERVAL cfg)) w).
  destruct (monitor_loop_world cfg rounds ts w0) as (Hs & Hr & Hp).
  split.
  - assert (Hgrow : ∀ n ts1 w1, ∃ ms,
              outbox (monitor_loop cfg n ts1 w1).2 = outbox w1 ++ ms).
    { induction n as [|n IH]; intros ts1 w1; simpl.
      - exists []. rewrite app_nil_r. reflexivity.
      - assert (Hrc : ∀ l w2, ∃ ms, outbox (run_checks cfg l w2).2 = outbox w2 ++ ms).
        { induction l as [|t l IHl]; intros w2; simpl.
          - exists []. rewrite app_nil_r. reflexivity.
          - assert (Hct : ∃ ms, outbox (check_target cfg t w2).2 = outbox w2 ++ ms).
            { unfold check_target.
              destruct (check_target_probe_world cfg t w2) as (Ho & _).
              destruct (check_target_probe cfg t w2) as [[r|e] w3]; simpl in *.
              - destruct (update_outbox cfg t r w3) as (ms & Hms & _).
                destruct (check_target_update cfg t r w3). simpl in *.
                exists ms. rewrite Hms, Ho. reflexivity.
              - exists []. rewrite app_nil_r. exact Ho. }
            destruct Hct as (ms1 & Hms1).
            destruct (check_target cfg t w2) as [[e t'] w3]. simpl in *.
            destruct (IHl w3) as (ms2 & Hms2).
            destruct (run_checks cfg l w3) as [l' w4]. simpl in *.
            exists (ms1 ++ ms2). rewrite Hms2, Hms1, app_assoc. reflexivity. }
        destruct (Hrc ts1 w1) as (ms1 & Hms1).
        destruct (run_checks cfg ts1 w1) as [ts1' w2]. simpl in *.
        destruct (IH ts1' (sleep (CHECK_INTERVAL cfg) w2)) as (ms2 & Hms2).
        exists (ms1 ++ ms2). rewrite Hms2. simpl. rewrite Hms1, app_assoc.
        reflexivity. }
    destruct (Hgrow rounds ts w0) as (ms & Hms). exists ms.
    rewrite Hms. unfold w0. simpl. rewrite <- app_assoc. reflexivity.
  - split; [|split; [exact Hs|exact Hp]].
    rewrite Hr. unfold w0, reports. simpl. rewrite omap_app. simpl.
    apply app_nil_r.
Qed.

Lemma continuous_mode_witness :
  let cfg := CONFIG empty_env in
  let w := world_at 0 1000 (net_without "54.36.114.17") in
  let ts := [server "BTCPayServer PROD" "51.75.90.145" UNKNOWN 0;
             server "Bitmoon API PROD" "54.36.114.17" UNKNOWN 0] in
  RUN_ONCE cfg = false
  ∧ slept (start cfg 3 ts w).2 = [30; 30; 30]
  ∧ reports (outbox (start cfg 3 ts w).2) = []
  ∧ alert_flags (outbox (start cfg 3 ts w).2) = [true].
Proof.
  intros cfg w ts.
  assert (Hloop : RUN_ONCE cfg = false) by reflexivity.
  destruct (continuous_mode cfg 3 ts w Hloop) as (_ & Hr & Hs & _).
  split; [exact Hloop|]. split; [exact Hs|]. split; [exact Hr|].
  vm_compute. reflexivity.
Defined.

(** ** The targets of [_init_targets] *)

Lemma no_P_uint d : no_P (NilEmpty.string_of_uint d) = true.
Proof. induction d; simpl; auto. Qed.

Lemma no_P_str_of_int z : no_P (str_of_int z) = true.
Proof.
  unfold str_of_int, NilZero.string_of_int, NilZero.string_of_uint.
  destruct (Z.to_int z) as [d|d]; destruct d; simpl;
    auto using no_P_uint.
Qed.

Lemma contains_cons n c s :
  contains n (String c s) = String.prefix n (String c s) || contains n s.
Proof. reflexivity. Qed.

Lemma prefix_cons a s1 b s2 :
  String.prefix (String a s1) (String b s2)
  = if ascii_dec a b then String.prefix s1 s2 else false.
Proof. reflexivity. Qed.

(** Decides the comparisons of two known characters in the goal. *)
Ltac known_chars :=
  repeat (rewrite ?contains_cons, ?prefix_cons;
          match goal with
          | |- context [ascii_dec ?a ?b] =>
              destruct (ascii_dec a b) as [Heq|Hne];
              [try discriminate Heq|try (exfalso; apply Hne; reflexivity)]
          end); cbn [orb].

Lemma no_P_not_Ping s : no_P s = true → contains "Ping" s = false.
Proof.
  induction s as [|c s IH]; [reflexivity|].
  cbn [no_P]. intros H. apply andb_true_iff in H as [Hc Hs].
  rewrite contains_cons, (IH Hs), orb_false_r.
  change "Ping" with (String "P" "ing"). rewrite prefix_cons.
  destruct (ascii_dec "P" c) as [<-|_]; [|reflexivity].
  vm_compute in Hc. discriminate Hc.
Qed.

(** The type of a TCP target selects the TCP probe, whatever the port. *)
Lemma tcp_type_dispatch port :
  contains "Ping" ("TCP:" +:+ str_of_int port) = false
  ∧ contains "TCP" ("TCP:" +:+ str_of_int port) = true.
Proof.
  change ("TCP:" +:+ str_of_int port)
    with (String "T" (String "C" (String "P" (String ":" (str_of_int port))))).
  change "Ping" with (String "P" (String "i" "ng")).
  change "TCP" with (String "T" (String "C" (String "P" ""))).
  split.
  - known_chars. apply no_P_not_Ping, no_P_str_of_int.
  - known_chars. reflexivity.
Qed.

(** What a check of a target with a given type and configuration issues,
    for each of the five shapes [_init_targets] builds. *)
Lemma check_target_finish cfg t (p : ProbeResult * World) w c :
  probes p.2 = probes w ++ [c] →
  (let '(target', w'') := check_target_update cfg t p.1 p.2 in
   (None : option Exn, target', w'')).1.1 = None
  ∧ probes (let '(target', w'') := check_target_update cfg t p.1 p.2 in
            (None : option Exn, target', w'')).2 = probes w ++ [c].
Proof.
  intros Hp. pose proof (update_probes cfg t p.1 p.2) as Hu.
  destruct (check_target_update cfg t p.1 p.2) as [t' w']. simpl in *.
  split; [reflexivity|]. rewrite Hu. exact Hp.
Qed.

Lemma check_target_server cfg t host w :
  type t = "Server (Ping)" → config t = {[ "host" := PStr host ]} →
  (check_target cfg t w).1.1 = None
  ∧ probes (check_target cfg t w).2 = probes w ++ [Ping (PStr host) (TIMEOUT cfg)].
Proof.
  intros Hty Hcf. unfold check_target, check_target_probe, getitem.
  rewrite Hty, Hcf. change (contains "Ping" "Server (Ping)") with true.
  cbv iota. rewrite lookup_singleton_eq.
  destruct (check_ping_world cfg (PStr host) w) as (_ & _ & Hp).
  pose proof (check_target_finish cfg t (check_ping cfg (PStr host) w) w _ Hp) as H.
  destruct (check_ping cfg (PStr host) w) as [r w']. exact H.
Qed.

Lemma check_target_service cfg t host port w :
  type t = "TCP:" +:+ str_of_int port →
  config t = {[ "host" := PStr host; "port" := PInt port ]} →
  (check_target cfg t w).1.1 = None
  ∧ probes (check_target cfg t w).2
    = probes w ++ [TcpPort (PStr host) (PInt port) (TIMEOUT cfg)].
Proof.
  intros Hty Hcf. unfold check_target, check_target_probe, getitem.
  destruct (tcp_type_dispatch port) as [Hping Htcp].
  rewrite Hty, Hcf, Hping, Htcp. cbv iota.
  rewrite lookup_insert_eq, lookup_insert_ne by discriminate.
  rewrite lookup_singleton_eq.
  destruct (check_tcp_port_world cfg (PStr host) (PInt port) w) as (_ & _ & Hp).
  pose proof (check_target_finish cfg t
                (check_tcp_port cfg (PStr host) (PInt port) w) w _ Hp) as H.
  destruct (check_tcp_port cfg (PStr host) (PInt port) w) as [r w']. exact H.
Qed.

Lemma check_target_website cfg t url expected w :
  type t = "HTTP/HTTPS" →
  config t = {[ "url" := PStr url; "expected_status" := PInt expected ]} →
  (check_target cfg t w).1.1 = None
  ∧ probes (check_target cfg t w).2
    = probes w ++ [Http (PStr url) (PInt expected) (TIMEOUT cfg)].
Proof.
  intros Hty Hcf. unfold check_target, check_target_probe, getitem.
  rewrite Hty, Hcf.
  change (contains "Ping" "HTTP/HTTPS") with false.
  change (contains "TCP" "HTTP/HTTPS") with false.
  change (contains "HTTP" "HTTP/HTTPS") with true. cbv iota.
  rewrite lookup_insert_eq, lookup_insert_ne by discriminate.
  rewrite lookup_singleton_eq.
  change (default (PInt 200) (Some (PInt expected))) with (PInt expected).
  destruct (check_http_world cfg (PStr url) (PInt expected) w) as (_ & _ & Hp).
  pose proof (check_target_finish cfg t
                (check_http cfg (PStr url) (PInt expected) w) w _ Hp) as H.
  destruct (check_http cfg (PStr url) (PInt expected) w) as [r w']. exact H.
Qed.

Lemma check_target_container cfg t container w :
  type t = "Docker" → config t = {[ "container" := PStr container ]} →
  (check_target cfg t w).1.1 = None
  ∧ probes (check_target cfg t w).2
    = probes w ++ [Docker (PStr container) (TIMEOUT cfg)].
Proof.
  intros Hty Hcf. unfold check_target, check_target_probe, getitem.
  rewrite Hty, Hcf.
  change (contains "Ping" "Docker") with false.
  change (contains "TCP" "Docker") with false.
  change (contains "HTTP" "Docker") with false.
  change (contains "Docker" "Docker") with true. cbv iota.
  rewrite lookup_singleton_eq.
  destruct (check_docker_world cfg (PStr container) w) as (_ & _ & Hp).
  pose proof (check_target_finish cfg t
                (check_docker cfg (PStr container) w) w _ Hp) as H.
  destruct (check_docker cfg (PStr container) w) as [r w']. exact H.
Qed.

Lemma check_target_unit cfg t service w :
  type t = "Systemd" → config t = {[ "service" := PStr service ]} →
  (check_target cfg t w).1.1 = None
  ∧ probes (check_target cfg t w).2
    = probes w ++ [Systemd (PStr service) (TIMEOUT cfg)].
Proof.
  intros Hty Hcf. unfold check_target, check_target_probe, getitem.
  rewrite Hty, Hcf.
  change (contains "Ping" "Systemd") with false.
  change (contains "TCP" "Systemd") with false.
  change (contains "HTTP" "Systemd") with false.
  change (contains "Docker" "Systemd") with false.
  change (contains "Systemd" "Systemd") with true. cbv iota.
  rewrite lookup_singleton_eq.
  destruct (check_systemd_world cfg (PStr service) w) as (_ & _ & Hp).
  pose proof (check_target_finish cfg t
                (check_systemd cfg (PStr service) w) w _ Hp) as H.
  destruct (check_systemd cfg (PStr service) w) as [r w']. exact H.
Qed.

(** A target that has the identity of a target of [_init_targets] is
    checked without exception and with the one probe of its entry. *)
Lemma init_target_check cfg e :
  Forall2 (λ t0 c, ∀ t w, identity t = identity t0 →
                     (check_target cfg t w).1.1 = None
                     ∧ probes (check_target cfg t w).2 = probes w ++ [c])
    (_init_targets e) (endpoint_probes cfg e).
Proof.
  unfold _init_targets, endpoint_probes.
  repeat apply Forall2_app; apply Forall2_fmap, Forall_Forall2_diag, Forall_true;
    intros x t w Hid; unfold identity in Hid; simpl in Hid;
    injection Hid as _ Hty Hcf.
  - apply check_target_server; assumption.
  - apply check_target_service; assumption.
  - apply check_target_website; assumption.
  - apply check_target_container; assumption.
  - apply check_target_unit; assumption.
Qed.

Lemma run_checks_probes cfg ts0 cs :
  Forall2 (λ t0 c, ∀ t w, identity t = identity t0 →
                     (check_target cfg t w).1.1 = None
                     ∧ probes (check_target cfg t w).2 = probes w ++ [c])
    ts0 cs →
  ∀ ts w, identity <$> ts = identity <$> ts0 →
          probes (run_checks cfg ts w).2 = probes w ++ cs.
Proof.
  induction 1 as [|t0 c ts0 cs Hc _ IH]; intros ts w Hid.
  - destruct ts; [|discriminate]. simpl. rewrite app_nil_r. reflexivity.
  - destruct ts as [|t ts]; [discriminate|]. rewrite !fmap_cons in Hid.
    assert (Ht : identity t = identity t0) by congruence.
    assert (Hts : identity <$> ts = identity <$> ts0) by congruence.
    cbn [run_checks].
    destruct (Hc t w Ht) as [_ Hp].
    destruct (check_target cfg t w) as [[e t'] w']. cbn [fst snd] in Hp.
    specialize (IH ts w' Hts).
    destruct (run_checks cfg ts w') as [ts' w'']. cbn [fst snd] in *.
    rewrite IH, Hp, <- app_assoc. reflexivity.
Qed.

Lemma monitor_loop_probes cfg ts0 cs :
  Forall2 (λ t0 c, ∀ t w, identity t = identity t0 →
                     (check_target cfg t w).1.1 = None
                     ∧ probes (check_target cfg t w).2 = probes w ++ [c])
    ts0 cs →
  ∀ rounds ts w, identity <$> ts = identity <$> ts0 →
    probes (monitor_loop cfg rounds ts w).2
    = probes w ++ mjoin (replicate rounds cs).
Proof.
  intros Hcs. induction rounds as [|n IH]; intros ts w Hid.
  - simpl. rewrite app_nil_r. reflexivity.
  - cbn [monitor_loop replicate].
    pose proof (run_checks_probes cfg ts0 cs Hcs ts w Hid) as Hp.
    pose proof (run_checks_identity cfg ts w) as Hid'.
    destruct (run_checks cfg ts w) as [ts' w']. cbn [fst snd] in *.
    rewrite IH by (rewrite Hid'; exact Hid).
    cbn [sleep probes]. rewrite Hp, <- app_assoc. reflexivity.
Qed.

(** X15: a monitor started on the targets of [_init_targets] probes, in
    every round, every listed endpoint exactly once, with the probe of its
    list and the parameters of its entry, in the order of the lists: one
    round in run-once mode, [rounds] rounds in continuous mode. *)
Theorem monitor_probes_every_endpoint cfg e rounds w :
  probes (start cfg rounds (_init_targets e) w).2
  = probes w
    ++ mjoin (replicate (if RUN_ONCE cfg then 1%nat else rounds)
                (endpoint_probes cfg e)).
Proof.
  pose proof (init_target_check cfg e) as Hcs.
  unfold start. destruct (RUN_ONCE cfg).
  - pose proof (run_checks_probes cfg _ _ Hcs (_init_targets e) w eq_refl) as Hp.
    destruct (run_checks cfg (_init_targets e) w) as [ts' w'].
    cbn [fst snd] in *. simpl. rewrite app_nil_r.
    destruct (filter _ ts'); cbn [fst snd]; [exact Hp|].
    rewrite (proj1 (send_status_report_world ts' w')). exact Hp.
  - rewrite (monitor_loop_probes cfg _ _ Hcs rounds (_init_targets e) _ eq_refl).
    reflexivity.
Qed.

(** The deployment of the source: 6 pings, 11 TCP connections and 7 HTTP
    requests per round. *)
Example deployment_round :
  let cfg := CONFIG empty_env in
  let w := world_at 0 1000 healthy_net in
  length (_init_targets deployment) = 24%nat
  ∧ length (probes (run_checks cfg (_init_targets deployment) w).2) = 24%nat
  ∧ probes (run_checks cfg (_init_targets deployment) w).2 !! 7%nat
    = Some (TcpPort (PStr "51.75.90.145") (PInt 443) 10)
  ∧ status <$> (run_checks cfg (_init_targets deployment) w).1
    = replicate 24 UP.
Proof.
  intros cfg w. repeat split; vm_compute; reflexivity.
Qed.

(** X16: no check of a monitor started on the targets of [_init_targets]
    ever raises: every target it holds, after any number of rounds in
    either mode, has the configuration keys the probe of its type reads. *)
Theorem monitor_checks_never_raise cfg e rounds w :
  Forall (λ t, ∀ cfg' w', (check_target cfg' t w').1.1 = None)
    (start cfg rounds (_init_targets e) w).1.
Proof.
  assert (Hid : identity <$> (start cfg rounds (_init_targets e) w).1
                = identity <$> _init_targets e).
  { unfold start. destruct (RUN_ONCE cfg).
    - pose proof (run_checks_identity cfg (_init_targets e) w) as Hr.
      destruct (run_checks cfg (_init_targets e) w) as [ts' w'].
      destruct (filter _ ts'); exact Hr.
    - apply monitor_loop_identity. }
  revert Hid. generalize (start cfg rounds (_init_targets e) w).1 as ts.
  intros ts Hid. apply Forall_forall. intros t Hin cfg' w'.
  assert (Hin0 : identity t ∈ identity <$> _init_targets e)
    by (rewrite <- Hid; apply list_elem_of_fmap_2, Hin).
  apply list_elem_of_fmap in Hin0 as (t0 & Ht0 & Hin0).
  pose proof (init_target_check cfg' e) as Hcs.
  apply Forall2_Forall_l with
    (Q := λ t0, ∀ t w, identity t = identity t0 → (check_target cfg' t w).1.1 = None)
    in Hcs.
  - rewrite Forall_forall in Hcs. exact (Hcs t0 Hin0 t w' Ht0).
  - apply Forall_true. intros c t1 Hc t2 w2 H2. apply (Hc t2 w2 H2).
Qed.

(** ** What the probes return *)

(** X17: a probe that reports success reports no error detail, and a ping,
    TCP, docker or systemd probe that reports failure reports a response
    time of zero (the HTTP probe keeps the elapsed time when the status is
    not the expected one). *)
Theorem probe_results_shape cfg host port url expected container service w :
  ((check_ping cfg host w).1.1.1 = true → (check_ping cfg host w).1.2 = "")
  ∧ ((check_tcp_port cfg host port w).1.1.1 = true →
     (check_tcp_port cfg host port w).1.2 = "")
  ∧ ((check_http cfg url expected w).1.1.1 = true →
     (check_http cfg url expected w).1.2 = "")
  ∧ ((check_docker cfg container w).1.1.1 = true →
     (check_docker cfg container w).1.2 = "")
  ∧ ((check_systemd cfg service w).1.1.1 = true →
     (check_systemd cfg service w).1.2 = "")
  ∧ ((check_ping cfg host w).1.1.1 = false → (check_ping cfg host w).1.1.2 = 0)
  ∧ ((check_tcp_port cfg host port w).1.1.1 = false →
     (check_tcp_port cfg host port w).1.1.2 = 0)
  ∧ ((check_docker cfg container w).1.1.1 = false →
     (check_docker cfg container w).1.1.2 = 0)
  ∧ ((check_systemd cfg service w).1.1.1 = false →
     (check_systemd cfg service w).1.1.2 = 0).
Proof.
  unfold check_ping, check_tcp_port, tcp_failure, check_http, check_docker,
    check_systemd.
  repeat split; probe_cases; discriminate.
Qed.

(** The result a probe hands to the state machine. *)
Lemma check_target_probe_result cfg t w r :
  (check_target_probe cfg t w).1 = Returned r →
  (r.1.1 = true → r.2 = "")
  ∧ ((∀ n, clock w n ≤ clock w (S n)) → 0 ≤ r.1.2).
Proof.
  unfold check_target_probe, getitem, check_ping, check_tcp_port, tcp_failure,
    check_http, check_docker, check_systemd, now, issue.
  intros H. simpl in H.
  assert (Hstep : (∀ n, clock w n ≤ clock w (S n)) →
                  0 ≤ clock w (S (ticks w)) - clock w (ticks w)).
  { intros Hm. specialize (Hm (ticks w)). lia. }
  repeat match goal with
         | _ : context [match ?x with _ => _ end] |- _ =>
             lazymatch x with
             | context [match _ with _ => _ end] => fail
             | _ => destruct x; simpl in H; try discriminate H
             end
         end;
    injection H as <-; simpl;
    (split; [intros Hok; first [reflexivity|discriminate Hok]
            |intros Hm; specialize (Hstep Hm); lia]).
Qed.

(** X18: with a clock that does not run backwards, a check that does not
    raise leaves a response time that is not negative on the target. *)
Theorem response_time_not_negative cfg t w :
  (∀ n, clock w n ≤ clock w (S n)) →
  (check_target cfg t w).1.1 = None →
  0 ≤ response_time (check_target cfg t w).1.2.
Proof.
  intros Hmono. unfold check_target.
  destruct (check_target_probe cfg t w) as [[r|e] w'] eqn:Hp; [|discriminate].
  intros _.
  destruct (check_target_probe_result cfg t w r) as [_ Hrt];
    [rewrite Hp; reflexivity|].
  specialize (Hrt Hmono). destruct r as [[ok rt] msg].
  destruct ok.
  - destruct (update_success cfg t rt msg w') as (_ & _ & Hr & _).
    destruct (check_target_update cfg t (true, rt, msg) w'). simpl in *.
    rewrite Hr. exact Hrt.
  - destruct (update_failure cfg t rt msg w') as (_ & _ & Hr & _).
    destruct (check_target_update cfg t (false, rt, msg) w'). simpl in *.
    rewrite Hr. exact Hrt.
Qed.

Lemma response_time_not_negative_witness :
  let cfg := CONFIG empty_env in
  let w := world_at 0 1000 healthy_net in
  let t := server "CRATOS" "btcppl.mywire.org" UNKNOWN 0 in
  (∀ n, clock w n ≤ clock w (S n))
  ∧ (check_target cfg t w).1.1 = None
  ∧ response_time (check_target cfg t w).1.2 = 1000
  ∧ 0 ≤ response_time (check_target cfg t w).1.2.
Proof.
  intros cfg w t.
  assert (Hm : ∀ n, clock w n ≤ clock w (S n)) by (intros n; simpl; lia).
  assert (Hn : (check_target cfg t w).1.1 = None) by (vm_compute; reflexivity).
  split; [exact Hm|]. split; [exact Hn|]. split; [vm_compute; reflexivity|].
  exact (response_time_not_negative cfg t w Hm Hn).
Defined.

(** A clock that jumps back between the two readings of a probe gives a
    negative response time. *)
Example response_time_negative :
  let cfg := CONFIG empty_env in
  let w := world_at 5000000 (-1000) healthy_net in
  let t := server "CRATOS" "btcppl.mywire.org" UNKNOWN 0 in
  response_time (check_target cfg t w).1.2 = -1000.
Proof. vm_compute. reflexivity. Qed.

(** ** The error text of a target *)

Lemma check_target_clean cfg t w :
  clean_invariant t → clean_invariant (check_target cfg t w).1.2.
Proof.
  unfold clean_invariant. intros [Hnn Hclean]. unfold check_target.
  destruct (check_target_probe cfg t w) as [[r|e] w'] eqn:Hp; [|auto].
  destruct (check_target_probe_result cfg t w r) as [Hok _];
    [rewrite Hp; reflexivity|].
  destruct r as [[ok rt] msg]. destruct ok.
  - destruct (update_success cfg t rt msg w') as (_ & Hc & _ & Hm & _).
    destruct (check_target_update cfg t (true, rt, msg) w'). simpl in *.
    rewrite Hc, Hm. split; [lia|]. intros _. apply Hok. reflexivity.
  - destruct (update_failure cfg t rt msg w') as (Hc & _).
    destruct (check_target_update cfg t (false, rt, msg) w'). simpl in *.
    rewrite Hc. split; lia.
Qed.

Lemma run_checks_clean cfg ts :
  ∀ w, Forall clean_invariant ts → Forall clean_invariant (run_checks cfg ts w).1.
Proof.
  induction ts as [|t ts IH]; intros w Hall; simpl; [constructor|].
  apply Forall_cons in Hall as [Ht Hts].
  pose proof (check_target_clean cfg t w Ht) as Ht'.
  destruct (check_target cfg t w) as [[e t'] w']. simpl in Ht'.
  specialize (IH w' Hts). destruct (run_checks cfg ts w') as [ts' w''].
  constructor; assumption.
Qed.

Lemma monitor_loop_clean cfg rounds :
  ∀ ts w, Forall clean_invariant ts →
          Forall clean_invariant (monitor_loop cfg rounds ts w).1.
Proof.
  induction rounds as [|n IH]; intros ts w Hall; simpl; [exact Hall|].
  pose proof (run_checks_clean cfg ts w Hall) as Hr.
  destruct (run_checks cfg ts w) as [ts' w']. apply IH, Hr.
Qed.

(** X19: in a monitor started on the targets of [_init_targets] the counter
    of consecutive failures of a target is never negative, and a target
    whose counter is at zero (its last probe succeeded, or it has not been
    probed yet) holds an empty error text. *)
Theorem registry_error_text cfg e rounds w :
  Forall (λ t, 0 ≤ consecutive_failures t
               ∧ (consecutive_failures t = 0 → error_message t = ""))
    (start cfg rounds (_init_targets e) w).1.
Proof.
  assert (Hinit : Forall clean_invariant (_init_targets e)).
  { eapply Forall_impl; [apply init_targets_fresh|].
    intros t (_ & Hc & _ & _ & Hm & _). unfold clean_invariant.
    rewrite Hc. split; [lia|auto]. }
  change (Forall clean_invariant (start cfg rounds (_init_targets e) w).1).
  unfold start. destruct (RUN_ONCE cfg).
  - pose proof (run_checks_clean cfg _ w Hinit) as Hr.
    destruct (run_checks cfg (_init_targets e) w) as [ts' w'].
    destruct (filter _ ts'); exact Hr.
  - apply monitor_loop_clean, Hinit.
Qed.

(** An Up target can hold an error text: one failure under the threshold
    stores it and leaves the status alone. *)
Example up_target_with_error :
  let cfg := CONFIG empty_env in
  let w := world_at 0 1000 (net_without "54.36.114.17") in
  let t := server "Bitmoon API PROD" "54.36.114.17" UP 0 in
  status (check_target cfg t w).1.2 = UP
  ∧ error_message (check_target cfg t w).1.2 = "Host unreachable".
Proof. vm_compute. auto. Qed.

(** ** The HTTP probe of a target without expected status *)

(** X20: an HTTP target whose configuration has no "expected_status" is
    probed against 200: the probe succeeds exactly when the response status
    is 200, and otherwise reports "HTTP <status>" together with the time
    the request took. *)
Theorem http_expected_status_defaults cfg t url w st :
  contains "Ping" (type t) = false →
  contains "TCP" (type t) = false →
  contains "HTTP" (type t) = true →
  config t !! "url" = Some url →
  config t !! "expected_status" = None →
  http_get (net w) (length (probes w)) url (TIMEOUT cfg) = Returned st →
  (check_target_probe cfg t w).1
  = Returned (bool_decide (st = 200),
              clock w (S (ticks w)) - clock w (ticks w),
              if bool_decide (st = 200) then "" else "HTTP " +:+ str_of_int st)
  ∧ probes (check_target_probe cfg t w).2
    = probes w ++ [Http url (PInt 200) (TIMEOUT cfg)].
Proof.
  intros Hping Htcp Hhttp Hurl Hexp Hget.
  unfold check_target_probe, getitem, check_http.
  rewrite Hping, Htcp, Hhttp, Hurl, Hexp. simpl. rewrite Hget. simpl.
  destruct (decide (st = 200)) as [->|Hne].
  - rewrite !bool_decide_eq_true_2 by reflexivity. auto.
  - rewrite (bool_decide_eq_false_2 (PInt st = PInt 200)) by congruence.
    rewrite !(bool_decide_eq_false_2 (st = 200)) by exact Hne. auto.
Qed.

Lemma http_expected_status_defaults_witness :
  let cfg := CONFIG empty_env in
  let nw := {| ping_proc := λ _ _ _, Returned 0;
               tcp_conn := λ _ _ _ _, Returned (Returned ());
               http_get := λ _ _ _, Returned 503;
               docker_inspect := λ _ _ _, Returned (0, "true");
               systemctl := λ _ _ _, Returned (0, Returned "active") |} in
  let w := world_at 0 85000 nw in
  let t := new_Target "Bitmoon Main" "HTTP/HTTPS"
             {[ "url" := PStr "https://bitmoon.it" ]} in
  config t !! "expected_status" = None
  ∧ (check_target_probe cfg t w).1 = Returned (false, 85000, "HTTP 503").
Proof.
  intros cfg nw w t.
  assert (Hexp : config t !! "expected_status" = None)
    by (vm_compute; reflexivity).
  destruct (http_expected_status_defaults cfg t (PStr "https://bitmoon.it") w 503)
    as [Hr _]; try (vm_compute; reflexivity).
  split; [exact Hexp|]. rewrite Hr. vm_compute. reflexivity.
Defined.

(** ** The error lines of a status report *)

(** X21: in a status report only Down lines carry an error line; every Down
    target with an error text is listed with that text, and every other
    target without any. *)
Theorem report_error_lines targets w :
  ∃ r, outbox (send_status_report targets w) = outbox w ++ [ReportMsg r]
    ∧ Forall (λ l, line_error l ≠ None → line_status l = DOWN) (report_lines r)
    ∧ ∀ t, t ∈ targets →
        {| line_status := status t; line_name := name t;
           line_error :=
             if bool_decide (status t = DOWN) && truthy (error_message t)
             then Some (error_message t) else None |} ∈ report_lines r.
Proof.
  eexists. split; [apply send_status_report_outbox|]. cbn [report_lines].
  split.
  - apply Forall_fmap, Forall_true. intros t. unfold report_line. simpl.
    destruct (bool_decide (status t = DOWN)) eqn:Hd; simpl.
    + apply bool_decide_eq_true_1 in Hd. destruct (truthy _); auto.
    + intros H. contradiction.
  - intros t Hin.
    assert (Hline : report_line t ∈ report_line <$> sorted key_lt sort_key targets).
    { apply list_elem_of_fmap_2. rewrite sorted_Permutation. exact Hin. }
    unfold report_line in Hline at 1.
    destruct (bool_decide (status t = DOWN) && truthy (error_message t));
      exact Hline.
Qed.

(** ** The order of the type tests *)

(** X22: the type tests are made in a fixed order and the first match
    wins: a target whose type contains "Ping" is pinged at its "host",
    whatever else its type contains and its configuration holds. *)
Theorem ping_type_wins cfg t host w :
  contains "Ping" (type t) = true →
  config t !! "host" = Some host →
  (check_target cfg t w).1.1 = None
  ∧ probes (check_target cfg t w).2 = probes w ++ [Ping host (TIMEOUT cfg)].
Proof.
  intros Hty Hcf. unfold check_target, check_target_probe, getitem.
  rewrite Hty, Hcf.
  destruct (check_ping_world cfg host w) as (_ & _ & Hp).
  pose proof (check_target_finish cfg t (check_ping cfg host w) w _ Hp) as H.
  destruct (check_ping cfg host w) as [r w']. exact H.
Qed.

Lemma ping_type_wins_witness :
  let cfg := CONFIG empty_env in
  let w := world_at 0 1000 healthy_net in
  let t := new_Target "Pingdom page" "HTTP/HTTPS (Pingdom)"
             {[ "url" := PStr "https://bitmoon.it";
                "host" := PStr "bitmoon.it" ]} in
  contains "Ping" (type t) = true
  ∧ contains "HTTP" (type t) = true
  ∧ probes (check_target cfg t w).2 = [Ping (PStr "bitmoon.it") 10].
Proof.
  intros cfg w t.
  assert (Hty : contains "Ping" (type t) = true) by (vm_compute; reflexivity).
  assert (Hcf : config t !! "host" = Some (PStr "bitmoon.it"))
    by (vm_compute; reflexivity).
  destruct (ping_type_wins cfg t (PStr "bitmoon.it") w Hty Hcf) as [_ Hp].
  split; [exact Hty|]. split; [vm_compute; reflexivity|]. exact Hp.
Defined.
